(** * Autoclean: the profiling and cleaning engine

    A shallow embedding of [autoclean/profiler.py] and [autoclean/cleaner.py],
    with the score of [autoclean/metrics.py] and the fallback of
    [autoclean/reporter.py].

    Conventions of the embedding.
    - A Python [str] is a Rocq [string]; its characters are read as the code
      points U+0000 .. U+00FF, on which [str.strip] and [str.lower] are
      modelled exactly.
    - A float is an exact rational ([Q]); NaN in a float column is the missing
      cell [None].  Infinities are outside the model.
    - A pandas Series is a typed list of optional cells ([Series]); a
      DataFrame is a row count with an ordered list of named columns.
    - Conversions that pandas performs on one scalar (parsing a number or a
      date out of a string, printing a number or a timestamp) are operations
      of the class [Pandas]; every result holds for all its instances.
    - A function that can raise returns a [Result].  Where a dtype meets an
      operation for which the embedding gives no account of pandas (a
      number written into a nullable boolean column, a numeric column read
      as dates), the result is [Raise OutOfModel].
    - A loop of the source that assigns [df[c]] in line is a map over the
      columns; a loop that calls a helper on [(df, col)] is [for_columns]
      over the column names, the helper reading and writing the table. *)

From Stdlib Require Import Bool Arith ZArith QArith Qround Qminmax Qabs List Ascii String
  DecimalString Sorted Lia Lqa.
Import ListNotations.
Close Scope Q_scope.
Open Scope string_scope.
Open Scope list_scope.

(* ================================================================== *)
(** * Part I. Definitions *)
(* ================================================================== *)

(** ** Strings *)

Definition code (c : ascii) : N := N_of_ascii c.

Definition between (lo hi n : N) : bool := (N.leb lo n && N.leb n hi)%bool.

(** [str.isspace] on one character. *)
Definition is_space (c : ascii) : bool :=
  let n := code c in
  (between 9 13 n || between 28 32 n || N.eqb n 133 || N.eqb n 160)%bool.

(** [str.lower] on one character. *)
Definition lower_char (c : ascii) : ascii :=
  let n := code c in
  if (between 65 90 n || (between 192 222 n && negb (N.eqb n 215)))%bool
  then ascii_of_N (n + 32) else c.

Fixpoint lower (s : string) : string :=
  match s with
  | EmptyString => EmptyString
  | String c s' => String (lower_char c) (lower s')
  end.

Fixpoint lstrip (s : string) : string :=
  match s with
  | EmptyString => EmptyString
  | String c s' => if is_space c then lstrip s' else s
  end.

Fixpoint rstrip (s : string) : string :=
  match s with
  | EmptyString => EmptyString
  | String c s' =>
      match rstrip s' with
      | EmptyString => if is_space c then EmptyString else String c EmptyString
      | r => String c r
      end
  end.

(** [str.strip()] *)
Definition strip (s : string) : string := rstrip (lstrip s).

Definition mem (s : string) (l : list string) : bool :=
  existsb (String.eqb s) l.

(** ** Data model *)

(** A column.  [SText] is an object/string column of text cells, [SNum] a
    float column, [SBool] a numpy bool column (no missing cell), [SBoolean] a
    nullable boolean column, [STime] a datetime64 column (nanoseconds). *)
Inductive Series : Type :=
| SText (l : list (option string))
| SNum (l : list (option Q))
| SBool (l : list bool)
| SBoolean (l : list (option bool))
| STime (l : list (option Z)).

Definition len (s : Series) : nat :=
  match s with
  | SText l => List.length l
  | SNum l => List.length l
  | SBool l => List.length l
  | SBoolean l => List.length l
  | STime l => List.length l
  end.

Definition is_some {A} (o : option A) : bool :=
  match o with Some _ => true | None => false end.

Definition is_none {A} (o : option A) : bool := negb (is_some o).

Definition count_none {A} (l : list (option A)) : nat :=
  List.length (filter is_none l).

(** [series.isna().sum()] *)
Definition isna_sum (s : Series) : nat :=
  match s with
  | SText l => count_none l
  | SNum l => count_none l
  | SBool _ => 0
  | SBoolean l => count_none l
  | STime l => count_none l
  end.

Definition is_text_dtype (s : Series) : bool :=
  match s with SText _ => true | _ => false end.

Definition is_datetime64_any_dtype (s : Series) : bool :=
  match s with STime _ => true | _ => false end.

Definition is_bool_dtype (s : Series) : bool :=
  match s with SBool _ | SBoolean _ => true | _ => false end.

(** pandas counts bool and nullable boolean among the numeric dtypes. *)
Definition is_numeric_dtype (s : Series) : bool :=
  match s with SNum _ | SBool _ | SBoolean _ => true | _ => false end.

(** A DataFrame: [nrows] is the length of the index, every column has that
    length and column names are distinct ([wf_table]). *)
Record Table : Type := mkTable {
  nrows : nat;
  columns : list (string * Series)
}.

Definition names (df : Table) : list string := map fst (columns df).

Definition wf_table (df : Table) : Prop :=
  NoDup (names df) /\ Forall (fun c => len (snd c) = nrows df) (columns df).

Fixpoint lookup (col : string) (cs : list (string * Series)) : option Series :=
  match cs with
  | [] => None
  | (n, s) :: cs' => if String.eqb n col then Some s else lookup col cs'
  end.

Fixpoint update (col : string) (v : Series) (cs : list (string * Series))
  : list (string * Series) :=
  match cs with
  | [] => []
  | (n, s) :: cs' =>
      if String.eqb n col then (n, v) :: cs' else (n, s) :: update col v cs'
  end.

(** [df[col]] and [df[col] = v] for a column that exists. *)
Definition get (df : Table) (col : string) : option Series :=
  lookup col (columns df).

Definition set (df : Table) (col : string) (v : Series) : Table :=
  mkTable (nrows df) (update col v (columns df)).

(** ** profiler.py: missing-token normalisation *)

Definition MISSING_MARKERS : list string :=
  [""; "?"; "na"; "n/a"; "null"; "none"; "nan"].

(** [s.replace({m: pd.NA for m in markers})] on one cell. *)
Definition replace_na (markers : list string) (c : option string)
  : option string :=
  match c with
  | None => None
  | Some s => if mem s markers then None else Some s
  end.

Definition option_map_str (f : string -> string) (c : option string)
  : option string :=
  match c with None => None | Some s => Some (f s) end.

(** One cell of [df[c].astype("string").str.strip().str.lower()] followed by
    the replacement of the markers. *)
Definition normalize_cell (c : option string) : option string :=
  replace_na MISSING_MARKERS (option_map_str lower (option_map_str strip c)).

Definition normalize_series (s : Series) : Series :=
  match s with
  | SText l => SText (map normalize_cell l)
  | _ => s
  end.

Definition _normalize_missing_tokens (df : Table) : Table :=
  mkTable (nrows df)
          (map (fun c => (fst c, normalize_series (snd c))) (columns df)).

(** ** cleaner.py: the normalisation stage of [clean_dataset] *)

Definition CLEAN_MARKERS : list string :=
  [""; "NA"; "N/A"; "null"; "None"; "nan"; "?"].

Definition clean_normalize_cell (c : option string) : option string :=
  replace_na CLEAN_MARKERS (option_map_str strip c).

Definition clean_normalize_series (s : Series) : Series :=
  match s with
  | SText l => SText (map clean_normalize_cell l)
  | _ => s
  end.

Definition normalize_strings (df : Table) : Table :=
  mkTable (nrows df)
          (map (fun c => (fst c, clean_normalize_series (snd c))) (columns df)).


(** ** Scalar conversions of the library *)

(** What pandas does to one scalar: [pd.to_numeric(errors="coerce")] and
    [pd.to_datetime(errors="coerce")] on one string ([None] when it does not
    parse), and [astype("string")] on one float and on one timestamp. *)
Class Pandas : Type := {
  to_numeric_str : string -> option Q;
  to_datetime_str : string -> option Z;
  str_of_float : Q -> string;
  str_of_timestamp : Z -> string
}.

(** ** Numbers *)

Definition Qlt_bool (x y : Q) : bool := negb (Qle_bool y x).

(** [round(x, 2)]: to the nearest hundredth, ties to the even one; the
    result is in lowest terms. *)
Definition round2 (x : Q) : Q :=
  let y := (x * 100)%Q in
  let fl := Qfloor y in
  let r := (y - inject_Z fl)%Q in
  let up :=
    if Qlt_bool r (1 # 2) then false
    else if Qlt_bool (1 # 2) r then true
    else Z.odd fl in
  Qred (inject_Z (if up then fl + 1 else fl)%Z / 100)%Q.

Fixpoint insert_sorted (x : Q) (l : list Q) : list Q :=
  match l with
  | [] => [x]
  | y :: l' => if Qle_bool x y then x :: l else y :: insert_sorted x l'
  end.

Definition sort (l : list Q) : list Q := fold_right insert_sorted [] l.

(** [s.quantile(q)] with linear interpolation; [None] on no value. *)
Definition quantile (l : list Q) (q : Q) : option Q :=
  match sort l with
  | [] => None
  | (x0 :: _) as xs =>
      let h := (inject_Z (Z.of_nat (List.length xs - 1)) * q)%Q in
      let i := Z.to_nat (Qfloor h) in
      let f := (h - inject_Z (Qfloor h))%Q in
      let a := nth i xs x0 in
      let b := nth (i + 1) xs a in
      Some (a + f * (b - a))%Q
  end.

Fixpoint somes {A} (l : list (option A)) : list A :=
  match l with
  | [] => []
  | Some x :: l' => x :: somes l'
  | None :: l' => somes l'
  end.

Definition Q_of_bool (b : bool) : Q := if b then 1%Q else 0%Q.

(** The non-missing values of a numeric column, as numbers. *)
Definition dropna_values (s : Series) : list Q :=
  match s with
  | SNum l => somes l
  | SBool l => map Q_of_bool l
  | SBoolean l => map Q_of_bool (somes l)
  | _ => []
  end.

Fixpoint dedup {A} (eqb : A -> A -> bool) (l : list A) : list A :=
  match l with
  | [] => []
  | x :: l' => if existsb (eqb x) l' then dedup eqb l' else x :: dedup eqb l'
  end.

(** [series.nunique(dropna=True)] *)
Definition nunique (s : Series) : nat :=
  match s with
  | SText l => List.length (dedup String.eqb (somes l))
  | SNum l => List.length (dedup Qeq_bool (somes l))
  | SBool l => List.length (dedup Bool.eqb l)
  | SBoolean l => List.length (dedup Bool.eqb (somes l))
  | STime l => List.length (dedup Z.eqb (somes l))
  end.

(** ** profiler.py: numeric coercion and type inference *)

(** [.str.replace(r"[\$,]", "", regex=True)] *)
Fixpoint remove_currency (s : string) : string :=
  match s with
  | EmptyString => EmptyString
  | String c s' =>
      if (Ascii.eqb c "$" || Ascii.eqb c ",")%bool then remove_currency s'
      else String c (remove_currency s')
  end.

Definition newline : ascii := ascii_of_N 10.

(** Whether a closing bracket follows before the end of the line. *)
Fixpoint has_close (s : string) : bool :=
  match s with
  | EmptyString => false
  | String c s' =>
      if Ascii.eqb c "]" then true
      else if Ascii.eqb c newline then false
      else has_close s'
  end.

Fixpoint strip_brackets (inside : bool) (s : string) : string :=
  match s with
  | EmptyString => EmptyString
  | String c s' =>
      if inside then
        strip_brackets (negb (Ascii.eqb c "]")) s'
      else if (Ascii.eqb c "[" && has_close s')%bool then
        strip_brackets true s'
      else String c (strip_brackets false s')
  end.

(** [.str.replace(r"\[.*?\]", "", regex=True)]: each shortest bracketed span
    within one line is removed. *)
Definition remove_brackets (s : string) : string := strip_brackets false s.

(** [.str.replace(r"[†‡]", "", regex=True)]: the two glyphs are beyond
    U+00FF, so no string of the model contains them. *)
Definition remove_daggers (s : string) : string := s.

Section Profiler.
Context {P : Pandas}.

(** One cell of the text branch of [clean_numeric_series]. *)
Definition coerce_cell (c : option string) : option Q :=
  let cleaned :=
    option_map_str lower
      (option_map_str strip
        (option_map_str remove_daggers
          (option_map_str remove_brackets
            (option_map_str remove_currency c)))) in
  match replace_na MISSING_MARKERS cleaned with
  | None => None
  | Some s => to_numeric_str s
  end.

Definition clean_numeric_series (series : Series) : Series :=
  if is_numeric_dtype series then series
  else if (is_datetime64_any_dtype series || is_bool_dtype series)%bool then
    SNum (repeat None (len series))
  else
    match series with
    | SText l => SNum (map coerce_cell l)
    | _ => series
    end.

Inductive ColumnType : Type :=
| numeric | binary | datetime | categorical | id_type.

(** [series.notna().sum()] *)
Definition notna_sum (s : Series) : nat := len s - isna_sum s.

(** [series.notna().mean()]; the mean of no cell is NaN, here [None]. *)
Definition notna_mean (s : Series) : option Q :=
  if Nat.eqb (len s) 0 then None
  else Some (inject_Z (Z.of_nat (notna_sum s))
             / inject_Z (Z.of_nat (len s)))%Q.

(** [x > y] for a float [x] that may be NaN: false on NaN. *)
Definition gt (x : option Q) (y : Q) : bool :=
  match x with
  | None => false
  | Some v => Qlt_bool y v
  end.

Definition infer_column_type (series : Series) : ColumnType :=
  if is_datetime64_any_dtype series then datetime
  else if is_bool_dtype series then binary
  else if is_numeric_dtype series then numeric
  else
    let numeric_version := clean_numeric_series series in
    if gt (notna_mean numeric_version) (8 # 10) then numeric
    else
      let n := len series in
      if Nat.eqb n 0 then categorical
      else
        let nunique := nunique series in
        if Nat.eqb nunique 2 then binary
        else
          let unique_ratio :=
            (inject_Z (Z.of_nat nunique) / inject_Z (Z.of_nat n))%Q in
          if Qlt_bool (9 # 10) unique_ratio then id_type
          else categorical.

(** ** profiler.py: outliers *)

Definition detect_outliers (series : Series) : nat :=
  if negb (is_numeric_dtype series) then 0
  else
    let s := dropna_values series in
    if Nat.ltb (List.length s) 3 then 0
    else
      match quantile s (25 # 100), quantile s (75 # 100) with
      | Some q1, Some q3 =>
          let iqr := (q3 - q1)%Q in
          if Qeq_bool iqr 0 then 0
          else
            let lower := (q1 - (15 # 10) * iqr)%Q in
            let upper := (q3 + (15 # 10) * iqr)%Q in
            List.length
              (filter (fun v => (Qlt_bool v lower || Qlt_bool upper v)%bool) s)
      | _, _ => 0
      end.

(** ** profiler.py: the dataset profile *)

Inductive Cell : Type :=
| CText (s : string) | CNum (q : Q) | CBool (b : bool) | CTime (t : Z) | CNA.

Definition cell_of {A} (f : A -> Cell) (o : option A) : Cell :=
  match o with Some x => f x | None => CNA end.

Definition cell_at (s : Series) (i : nat) : Cell :=
  match s with
  | SText l => cell_of CText (nth i l None)
  | SNum l => cell_of CNum (nth i l None)
  | SBool l => cell_of CBool (nth_error l i)
  | SBoolean l => cell_of CBool (nth i l None)
  | STime l => cell_of CTime (nth i l None)
  end.

(** Equality of cells as [DataFrame.duplicated] sees it: two missing cells
    are equal. *)
Definition cell_eqb (a b : Cell) : bool :=
  match a, b with
  | CText x, CText y => String.eqb x y
  | CNum x, CNum y => Qeq_bool x y
  | CBool x, CBool y => Bool.eqb x y
  | CTime x, CTime y => Z.eqb x y
  | CNA, CNA => true
  | _, _ => false
  end.

Fixpoint row_eqb (r1 r2 : list Cell) : bool :=
  match r1, r2 with
  | [], [] => true
  | a :: r1', b :: r2' => (cell_eqb a b && row_eqb r1' r2')%bool
  | _, _ => false
  end.

Definition row (df : Table) (i : nat) : list Cell :=
  map (fun c => cell_at (snd c) i) (columns df).

Fixpoint count_duplicated (seen rs : list (list Cell)) : nat :=
  match rs with
  | [] => 0
  | r :: rs' =>
      (if existsb (row_eqb r) seen then 1 else 0)
      + count_duplicated (r :: seen) rs'
  end.

(** [df.duplicated().sum()]: the rows equal to an earlier row; an empty
    frame has none. *)
Definition duplicated_sum (df : Table) : nat :=
  match columns df with
  | [] => 0
  | _ => count_duplicated [] (map (row df) (seq 0 (nrows df)))
  end.

(** [df.isna().sum().sum()] *)
Definition isna_sum_sum (df : Table) : nat :=
  fold_right (fun c acc => isna_sum (snd c) + acc) 0 (columns df).

(** [series.dropna()] *)
Definition dropna (s : Series) : Series :=
  match s with
  | SText l => SText (map Some (somes l))
  | SNum l => SNum (map Some (somes l))
  | SBool l => SBool l
  | SBoolean l => SBoolean (map Some (somes l))
  | STime l => STime (map Some (somes l))
  end.

Definition percent (k n : nat) : Q :=
  (inject_Z (Z.of_nat k) / inject_Z (Z.of_nat n) * 100)%Q.

(** The entries of a column profile that are rational: the skew and the
    entropy (a root and a logarithm) are left out. *)
Record ColumnProfile : Type := mkColumnProfile {
  cp_type : ColumnType;
  cp_missing_percent : Q;
  cp_cardinality : nat;
  cp_outliers : option nat
}.

Record Profile : Type := mkProfile {
  rows : nat;
  cols : nat;
  missing_percent : Q;
  duplicate_percent : Q;
  outlier_percent : Q;
  data_health_score : option Q;
  columns_profile : list (string * ColumnProfile)
}.

(** The body of the loop over the columns: the outliers of one column and
    its profile. *)
Definition column_profile (rows : nat) (raw_col : Series) : ColumnProfile :=
  let col_type := infer_column_type raw_col in
  mkColumnProfile
    col_type
    (if Nat.eqb rows 0 then 0%Q
     else round2 (percent (isna_sum raw_col) (len raw_col)))
    (nunique raw_col)
    (match col_type with
     | numeric =>
         let numeric_col := dropna (clean_numeric_series raw_col) in
         Some (if Nat.leb 3 (len numeric_col) then detect_outliers numeric_col
               else 0)
     | _ => None
     end).

Definition outliers_of (cp : ColumnProfile) : nat :=
  match cp_outliers cp with Some n => n | None => 0 end.

(** The data health score and the three percentages (the last block of
    [profile_dataset]).  The penalty is a quotient by a non-zero count, so
    the NaN/infinity guard of the source never fires on rationals. *)
Definition health (rows cols missing_cells duplicate_rows total_outliers : nat)
  : option Q * Q * Q * Q :=
  let total_cells := rows * cols in
  if (Nat.eqb rows 0 || Nat.eqb total_cells 0)%bool then
    (None, 0%Q, 0%Q, 0%Q)
  else
    let ratio k n := (inject_Z (Z.of_nat k) / inject_Z (Z.of_nat n))%Q in
    let missing_penalty := (ratio missing_cells total_cells * 40)%Q in
    let duplicate_penalty := (ratio duplicate_rows rows * 20)%Q in
    let outlier_penalty := Qmin (ratio total_outliers total_cells * 30) 30 in
    let total_penalty :=
      (missing_penalty + duplicate_penalty + outlier_penalty)%Q in
    let health_score := round2 (Qmax 0 (100 - total_penalty)) in
    (Some health_score,
     round2 (ratio missing_cells total_cells * 100),
     round2 (ratio duplicate_rows rows * 100),
     round2 (ratio total_outliers total_cells * 100)).

(** The loop over the columns of the normalised table: the profiles in
    column order and the running sum of the outliers. *)
Definition column_profiles (df : Table) : list (string * ColumnProfile) :=
  map (fun c => (fst c, column_profile (nrows df) (snd c))) (columns df).

Definition total_outliers (df : Table) : nat :=
  fold_left (fun acc c => acc + outliers_of (snd c)) (column_profiles df) 0.

Definition profile_dataset (df : Table) : Profile :=
  let df := _normalize_missing_tokens df in
  let rows := nrows df in
  let cols := List.length (columns df) in
  let missing_cells := isna_sum_sum df in
  let duplicate_rows := duplicated_sum df in
  let column_profiles := column_profiles df in
  let total_outliers := total_outliers df in
  match health rows cols missing_cells duplicate_rows total_outliers with
  | (health_score, missing_percent, duplicate_percent, outlier_percent) =>
      mkProfile rows cols missing_percent duplicate_percent outlier_percent
                health_score column_profiles
  end.

End Profiler.

(** ** cleaner.py: results, exceptions and the action log *)

(** [OutOfModel] marks a dtype on which the embedding gives no account of
    what pandas does. *)
Inductive Exn : Type :=
| ValueError (msg : string)
| OutOfModel.

Inductive Result (A : Type) : Type :=
| Ok (a : A)
| Raise (e : Exn).
Arguments Ok {A} a.
Arguments Raise {A} e.

Definition bind {A B} (r : Result A) (k : A -> Result B) : Result B :=
  match r with
  | Ok a => k a
  | Raise e => Raise e
  end.

Notation "x <- r ;; k" := (bind r (fun x => k))
  (at level 61, r at next level, right associativity).
Notation "' pat <- r ;; k" := (bind r (fun x => match x with pat => k end))
  (at level 61, pat pattern, r at next level, right associativity).

(** One entry of the action log; [render] gives the string of the source. *)
Inductive Action : Type :=
| NormalizeStrings
| TryParseDatetime (col : string) (before after : nat)
| TryParseBool (col : string)
| FillMissingNumeric (col strategy : string) (before after : nat)
| FillMissingBool (col : string) (fill_val : bool) (before after : nat)
| FillMissingCategorical (col : string) (before after : nat)
| CapOutliers (col : string) (changed : nat)
| Reconcile (filled : nat).

Definition str_of_nat (n : nat) : string :=
  NilEmpty.string_of_uint (Nat.to_uint n).

Definition str_of_bool (b : bool) : string := if b then "True" else "False".

Definition na_change (before after : nat) : string :=
  ("(na " ++ str_of_nat before ++ "->" ++ str_of_nat after ++ ")")%string.

Definition render (a : Action) : string :=
  (match a with
  | NormalizeStrings =>
      "normalize_strings: stripped whitespace + standardized missing markers"
  | TryParseDatetime col b a =>
      "try_parse_datetime: " ++ col ++ " " ++ na_change b a
  | TryParseBool col => "try_parse_bool: " ++ col
  | FillMissingNumeric col strategy b a =>
      "fill_missing: " ++ col ++ " (" ++ strategy ++ ") " ++ na_change b a
  | FillMissingBool col v b a =>
      "fill_missing: " ++ col ++ " (mode=" ++ str_of_bool v ++ ") "
      ++ na_change b a
  | FillMissingCategorical col b a =>
      "fill_missing: " ++ col ++ " (categorical='Unknown') " ++ na_change b a
  | CapOutliers col n =>
      "cap_outliers: " ++ col ++ " (changed " ++ str_of_nat n ++ ")"
  | Reconcile n =>
      "reconcile: filled " ++ str_of_nat n ++ " values across price/qty/total"
  end)%string.




(** ** cleaner.py: statistics of a column *)

Definition fillna {A} (v : A) (l : list (option A)) : list (option A) :=
  map (fun c => match c with None => Some v | Some _ => c end) l.

Definition Qsum (l : list Q) : Q := fold_right Qplus 0%Q l.

(** [median(skipna=True)], [mean(skipna=True)]: NaN on no value. *)
Definition median (l : list Q) : option Q :=
  match sort l with
  | [] => None
  | xs =>
      let n := List.length xs in
      if Nat.even n then
        Some ((nth (n / 2 - 1) xs 0 + nth (n / 2) xs 0) / 2)%Q
      else Some (nth (n / 2) xs 0%Q)
  end.

Definition mean (l : list Q) : option Q :=
  match l with
  | [] => None
  | _ => Some (Qsum l / inject_Z (Z.of_nat (List.length l)))%Q
  end.

Definition occurrences (x : Q) (l : list Q) : nat :=
  List.length (filter (Qeq_bool x) l).

(** [mode(dropna=True).iloc[0]]: the most frequent value, the least one on
    a tie. *)
Definition mode (l : list Q) : option Q :=
  fold_left
    (fun best x =>
       match best with
       | None => Some x
       | Some b => if Nat.ltb (occurrences b l) (occurrences x l)
                   then Some x else best
       end)
    (sort l) None.

Definition mode_bool (l : list bool) : option bool :=
  match l with
  | [] => None
  | _ =>
      Some (Nat.ltb (List.length (filter negb l))
                    (List.length (filter (fun b => b) l)))
  end.

(** [s.clip(lower=lo, upper=hi)] on one value. *)
Definition clip (lo hi x : Q) : Q :=
  if Qlt_bool x lo then lo else if Qlt_bool hi x then hi else x.

(** ** cleaner.py: parsing *)

Definition BOOL_TRUE : list string := ["true"; "t"; "yes"; "y"; "1"].
Definition BOOL_FALSE : list string := ["false"; "f"; "no"; "n"; "0"].

Definition iNaT : Z := (- 2 ^ 63)%Z.

Section Cleaner.
Context {P : Pandas}.

(** [pd.to_numeric(series, errors="coerce")]: text is parsed cell by cell, a
    numeric column (bool included) is returned as it is, a datetime column
    becomes its nanosecond counts. *)
Definition _to_numeric (series : Series) : Series :=
  match series with
  | SText l =>
      SNum (map (fun c => match c with
                          | Some s => to_numeric_str s
                          | None => None
                          end) l)
  | STime l =>
      SNum (map (fun c => match c with
                          | Some t => Some (inject_Z t)
                          | None => Some (inject_Z iNaT)
                          end) l)
  | _ => series
  end.

(** [series.astype("string")] *)
Definition astype_string (series : Series) : list (option string) :=
  match series with
  | SText l => l
  | SNum l => map (option_map str_of_float) l
  | SBool l => map (fun b => Some (str_of_bool b)) l
  | SBoolean l => map (option_map str_of_bool) l
  | STime l => map (option_map str_of_timestamp) l
  end.

Definition isin (c : option string) (l : list string) : bool :=
  match c with
  | Some s => mem s l
  | None => false
  end.

(** One cell of [_parse_bool]: the all-missing [out] receives [True] where
    the text is in [BOOL_TRUE], then [False] where it is in [BOOL_FALSE]. *)
Definition parse_bool_cell (c : option string) : option bool :=
  let s := option_map_str lower (option_map_str strip c) in
  let s := replace_na [""; "nan"; "none"] s in
  let out := None in
  let out := if isin s BOOL_TRUE then Some true else out in
  let out := if isin s BOOL_FALSE then Some false else out in
  out.

Definition _parse_bool (series : Series) : Series :=
  let out := SBoolean (map parse_bool_cell (astype_string series)) in
  match series with
  | SBool l => SBoolean (map Some l)
  | _ => out
  end.

(** [pd.to_datetime(series, errors="coerce")] on a text or a datetime
    column. *)
Definition to_datetime (series : Series) : Result Series :=
  match series with
  | SText l =>
      Ok (STime (map (fun c => match c with
                               | Some s => to_datetime_str s
                               | None => None
                               end) l))
  | STime _ => Ok series
  | _ => Raise OutOfModel
  end.

Definition _try_parse_datetime (df : Table) (col : string)
  (actions : list Action) : Result (Table * list Action) :=
  match get df col with
  | None => Ok (df, actions)
  | Some s =>
      let before_na := isna_sum s in
      s' <- to_datetime s ;;
      let df := set df col s' in
      let after_na := isna_sum s' in
      Ok (df, actions ++ [TryParseDatetime col before_na after_na])
  end.

(** ** cleaner.py: imputation *)

Definition strategy_value (strategy : string) (values : list Q)
  : Result (option Q) :=
  if String.eqb strategy "median" then Ok (median values)
  else if String.eqb strategy "mean" then Ok (mean values)
  else if String.eqb strategy "mode" then Ok (mode values)
  else Raise (ValueError ("Unknown numeric fill strategy: " ++ strategy)%string).

(** [df[col].fillna(val)] with a number, in a float column. *)
Definition fillna_numeric (s : Series) (val : Q) : Result Series :=
  match s with
  | SNum l => Ok (SNum (fillna val l))
  | _ => Raise OutOfModel
  end.

Definition _fill_missing_numeric (df : Table) (col strategy : string)
  (actions : list Action) : Result (Table * list Action) :=
  match get df col with
  | None => Ok (df, actions)
  | Some s =>
      let s := _to_numeric s in
      let df := set df col s in
      let before := isna_sum s in
      if Nat.eqb before 0 then Ok (df, actions)
      else
        val <- strategy_value strategy (dropna_values s) ;;
        match val with
        | None => Ok (df, actions)
        | Some v =>
            s' <- fillna_numeric s v ;;
            let df := set df col s' in
            let after := isna_sum s' in
            Ok (df, actions ++ [FillMissingNumeric col strategy before after])
        end
  end.

Definition _fill_missing_bool_mode (df : Table) (col : string)
  (actions : list Action) : Table * list Action :=
  match get df col with
  | None => (df, actions)
  | Some s =>
      let s := _parse_bool s in
      let df := set df col s in
      let before := isna_sum s in
      if Nat.eqb before 0 then (df, actions)
      else
        match s with
        | SBoolean l =>
            let fill_val :=
              match mode_bool (somes l) with
              | Some m => m
              | None => false
              end in
            let s' := SBoolean (fillna fill_val l) in
            let df := set df col s' in
            let after := isna_sum s' in
            (df, actions ++ [FillMissingBool col fill_val before after])
        | _ => (df, actions)
        end
  end.

(** [df[col].fillna("Unknown")]: a datetime column that receives the text
    becomes an object column of timestamps and text.  It is kept as the text
    column that [astype("string")] makes of it, which is the first thing
    [profile_dataset] and [clean_dataset] do to an object column. *)
Definition fillna_unknown (s : Series) : Series :=
  match s with
  | SText l => SText (fillna "Unknown" l)
  | STime l => SText (fillna "Unknown" (map (option_map str_of_timestamp) l))
  | _ => s
  end.

Definition _fill_missing_categorical_unknown (df : Table) (col : string)
  (actions : list Action) : Table * list Action :=
  match get df col with
  | None => (df, actions)
  | Some s =>
      if is_numeric_dtype s then (df, actions)
      else
        let before := isna_sum s in
        if Nat.eqb before 0 then (df, actions)
        else
          let s' := fillna_unknown s in
          let df := set df col s' in
          let after := isna_sum s' in
          (df, actions ++ [FillMissingCategorical col before after])
  end.

(** ** cleaner.py: outlier capping *)

Definition _cap_outliers_iqr (df : Table) (col : string)
  (actions : list Action) (k : Q) : Table * list Action :=
  match get df col with
  | None => (df, actions)
  | Some series =>
      if negb (is_numeric_dtype series) then (df, actions)
      else if is_bool_dtype series then (df, actions)
      else
        match series with
        | SNum l =>
            let s := somes l in
            match quantile s (25 # 100), quantile s (75 # 100) with
            | Some q1, Some q3 =>
                let iqr := (q3 - q1)%Q in
                if Qeq_bool iqr 0 then (df, actions)
                else
                  let lo := (q1 - k * iqr)%Q in
                  let hi := (q3 + k * iqr)%Q in
                  let before := l in
                  let after := map (option_map (clip lo hi)) l in
                  let df := set df col (SNum after) in
                  let changed :=
                    List.length
                      (filter (fun ba =>
                                 match ba with
                                 | (Some b, Some a) => negb (Qeq_bool b a)
                                 | _ => false
                                 end) (combine before after)) in
                  if Nat.eqb changed 0 then (df, actions)
                  else (df, actions ++ [CapOutliers col changed])
            | _, _ => (df, actions)
            end
        | _ => (df, actions)
        end
  end.

(** ** cleaner.py: reconciliation of price, quantity and total *)

Fixpoint zip_with {A B C} (f : A -> B -> C) (l1 : list A) (l2 : list B)
  : list C :=
  match l1, l2 with
  | a :: l1', b :: l2' => f a b :: zip_with f l1' l2'
  | _, _ => []
  end.

Fixpoint zip_with3 {A B C D} (f : A -> B -> C -> D)
  (l1 : list A) (l2 : list B) (l3 : list C) : list D :=
  match l1, l2, l3 with
  | a :: l1', b :: l2', c :: l3' => f a b c :: zip_with3 f l1' l2' l3'
  | _, _, _ => []
  end.

Definition omul (a b : option Q) : option Q :=
  match a, b with
  | Some x, Some y => Some (x * y)%Q
  | _, _ => None
  end.

Definition odiv (a b : option Q) : option Q :=
  match a, b with
  | Some x, Some y => Some (x / y)%Q
  | _, _ => None
  end.

(** [s != 0] on one cell: NaN differs from 0. *)
Definition ne0 (a : option Q) : bool :=
  match a with
  | Some x => negb (Qeq_bool x 0)
  | None => true
  end.

Definition any (mask : list bool) : bool := existsb (fun b => b) mask.

Definition mask_sum (mask : list bool) : nat :=
  List.length (filter (fun b => b) mask).

(** The cells of a numeric column as floats. *)
Definition as_floats (s : Series) : list (option Q) :=
  match s with
  | SNum l => l
  | SBool l => map (fun b => Some (Q_of_bool b)) l
  | SBoolean l => map (option_map Q_of_bool) l
  | _ => []
  end.

(** [df.loc[mask, col] = vals] for float values, in a float column. *)
Definition loc_set (s : Series) (mask : list bool) (vals : list (option Q))
  : Result Series :=
  match s with
  | SNum l => Ok (SNum (zip_with3 (fun (m : bool) v o => if m then v else o)
                                  mask vals l))
  | _ => Raise OutOfModel
  end.

(** [p], [q] and [t] of the source are the columns of [df] themselves: a
    later pass reads what an earlier pass wrote.  (A row filled by one pass
    is complete, so no later mask selects it.) *)
Definition _reconcile_price_qty_total (df : Table)
  (price_col qty_col total_col : string) (actions : list Action)
  : Result (Table * nat * list Action) :=
  let df :=
    fold_left (fun df c => match get df c with
                           | Some s => set df c (_to_numeric s)
                           | None => df
                           end) [price_col; qty_col; total_col] df in
  match get df price_col, get df qty_col, get df total_col with
  | Some p, Some q, Some t =>
      let filled := 0 in
      let mask :=
        zip_with3 (fun p q t => (is_some p && is_some q && is_none t)%bool)
                  (as_floats p) (as_floats q) (as_floats t) in
      '(df, t, filled) <-
        (if any mask then
           t' <- loc_set t mask
                   (map (option_map round2)
                        (zip_with omul (as_floats p) (as_floats q))) ;;
           Ok (set df total_col t', t', filled + mask_sum mask)
         else Ok (df, t, filled)) ;;
      let mask :=
        zip_with3 (fun t q p =>
                     (is_some t && is_some q && is_none p && ne0 q)%bool)
                  (as_floats t) (as_floats q) (as_floats p) in
      '(df, p, filled) <-
        (if any mask then
           p' <- loc_set p mask
                   (map (option_map round2)
                        (zip_with odiv (as_floats t) (as_floats q))) ;;
           Ok (set df price_col p', p', filled + mask_sum mask)
         else Ok (df, p, filled)) ;;
      let mask :=
        zip_with3 (fun t p q =>
                     (is_some t && is_some p && is_none q && ne0 p)%bool)
                  (as_floats t) (as_floats p) (as_floats q) in
      '(df, filled) <-
        (if any mask then
           q' <- loc_set q mask
                   (map (option_map round2)
                        (zip_with odiv (as_floats t) (as_floats p))) ;;
           Ok (set df qty_col q', filled + mask_sum mask)
         else Ok (df, filled)) ;;
      if Nat.ltb 0 filled then Ok (df, filled, actions ++ [Reconcile filled])
      else Ok (df, filled, actions)
  | _, _, _ => Ok (df, 0, actions)
  end.

(** ** cleaner.py: the pipeline *)

(** [for col in cleaned.columns: ...] over a step that may raise. *)
Fixpoint for_columns (step : Table * list Action -> string ->
                             Result (Table * list Action))
  (cols : list string) (st : Table * list Action)
  : Result (Table * list Action) :=
  match cols with
  | [] => Ok st
  | col :: cols' => st' <- step st col ;; for_columns step cols' st'
  end.

(** [is_bool_dtype(s) or str(s.dtype) == "boolean"] *)
Definition is_boolean (s : Series) : bool := is_bool_dtype s.

Definition clean_dataset (df : Table) : Result (Table * list Action) :=
  let cleaned := normalize_strings df in
  let actions := [NormalizeStrings] in
  '(cleaned, actions) <- _try_parse_datetime cleaned "transaction_date" actions ;;
  let '(cleaned, actions) :=
    match get cleaned "discount_applied" with
    | Some s =>
        (set cleaned "discount_applied" (_parse_bool s),
         actions ++ [TryParseBool "discount_applied"])
    | None => (cleaned, actions)
    end in
  let cleaned :=
    fold_left (fun df num_col => match get df num_col with
                                 | Some s => set df num_col (_to_numeric s)
                                 | None => df
                                 end)
              ["price_per_unit"; "quantity"; "total_spent"] cleaned in
  '(cleaned, _, actions) <-
    _reconcile_price_qty_total cleaned "price_per_unit" "quantity"
                               "total_spent" actions ;;
  st <- for_columns
          (fun '(df, acts) col =>
             match get df col with
             | Some s =>
                 if (is_numeric_dtype s && negb (is_boolean s))%bool
                 then _fill_missing_numeric df col "median" acts
                 else Ok (df, acts)
             | None => Ok (df, acts)
             end) (names cleaned) (cleaned, actions) ;;
  st <- for_columns
          (fun '(df, acts) col =>
             match get df col with
             | Some s =>
                 if is_boolean s
                 then Ok (_fill_missing_bool_mode df col acts)
                 else Ok (df, acts)
             | None => Ok (df, acts)
             end) (names cleaned) st ;;
  st <- for_columns
          (fun '(df, acts) col =>
             Ok (_fill_missing_categorical_unknown df col acts))
          (names cleaned) st ;;
  for_columns
    (fun '(df, acts) col =>
       match get df col with
       | Some s =>
           if is_numeric_dtype s
           then Ok (_cap_outliers_iqr df col acts (15 # 10))
           else Ok (df, acts)
       | None => Ok (df, acts)
       end) (names cleaned) st.

End Cleaner.

(** ** An instance of the scalar conversions *)

Definition digit (c : ascii) : option Z :=
  let n := code c in
  if between 48 57 n then Some (Z.of_N n - 48)%Z else None.

(** Digits with at most one point, at least one digit. *)
Fixpoint scan_decimal (s : string) (seen_point : bool) (num : Z)
  (den : positive) (ndigits : nat) : option Q :=
  match s with
  | EmptyString => if Nat.eqb ndigits 0 then None else Some (num # den)%Q
  | String c s' =>
      if Ascii.eqb c "." then
        if seen_point then None else scan_decimal s' true num den ndigits
      else
        match digit c with
        | Some d =>
            scan_decimal s' seen_point (num * 10 + d)%Z
                         (if seen_point then (den * 10)%positive else den)
                         (S ndigits)
        | None => None
        end
  end.

(** A signed decimal literal such as [12], [-3.50] or [+.5]. *)
Definition parse_decimal (s : string) : option Q :=
  match s with
  | String "-" s' => option_map Qopp (scan_decimal s' false 0 1 0)
  | String "+" s' => scan_decimal s' false 0 1 0
  | _ => scan_decimal s false 0 1 0
  end.

Definition str_of_Z (z : Z) : string :=
  NilEmpty.string_of_int (Z.to_int z).

(** The fractional digits of [r / den] for [0 <= r < den], ending when the
    remainder vanishes. *)
Fixpoint fraction_digits (fuel : nat) (r den : Z) : string :=
  match fuel with
  | O => EmptyString
  | S fuel' =>
      if Z.eqb r 0 then EmptyString
      else (str_of_Z (r * 10 / den)
            ++ fraction_digits fuel' (r * 10 mod den) den)%string
  end.

Definition print_decimal (q : Q) : string :=
  let a := Qabs q in
  let whole := Qfloor a in
  let r := (Qnum a - whole * Zpos (Qden a))%Z in
  ((if Qlt_bool q 0 then "-" else "")
   ++ str_of_Z whole ++ "."
   ++ (if Z.eqb r 0 then "0" else fraction_digits 17 r (Zpos (Qden a))))%string.

(** Decimal literals are parsed and printed; a timestamp is written as its
    count of nanoseconds and no text is read as a date. *)
Definition decimal_pandas : Pandas := {|
  to_numeric_str := parse_decimal;
  to_datetime_str := fun _ => None;
  str_of_float := print_decimal;
  str_of_timestamp := str_of_Z
|}.

(** ** metrics.py *)

Definition clamp (x lo hi : Q) : Q := Qmax lo (Qmin hi x).

(** [float(x or 0.0)] for [x] a number or [None]. *)
Definition or_zero (x : option Q) : Q :=
  match x with
  | Some v => v
  | None => 0%Q
  end.

Definition compute_health_score
  (missing_percent duplicate_percent outlier_percent : option Q)
  (w_missing w_dup w_outlier : Q) : Q :=
  let m := clamp (or_zero missing_percent) 0 100 in
  let d := clamp (or_zero duplicate_percent) 0 100 in
  let o := clamp (or_zero outlier_percent) 0 100 in
  let penalty := (w_missing * m + w_dup * d + w_outlier * o)%Q in
  round2 (clamp (100 - penalty) 0 100).

(** The default weights of [compute_health_score]. *)
Definition W_MISSING : Q := 55 # 100.
Definition W_DUP : Q := 30 # 100.
Definition W_OUTLIER : Q := 15 # 100.

(** ** reporter.py: the fallback score *)

(** [_ensure_health_score] on a profile that has its three percentages: a
    score that is a number is kept, [None] is replaced by the score of
    [compute_health_score] under its default weights. *)
Definition _ensure_health_score (profile : Profile) : Profile :=
  match data_health_score profile with
  | Some _ => profile
  | None =>
      mkProfile (rows profile) (cols profile)
                (missing_percent profile) (duplicate_percent profile)
                (outlier_percent profile)
                (Some (compute_health_score
                         (Some (missing_percent profile))
                         (Some (duplicate_percent profile))
                         (Some (outlier_percent profile))
                         W_MISSING W_DUP W_OUTLIER))
                (columns_profile profile)
  end.

(** ** Definitions used in the statements

    The wording of the specification where it differs from the code
    ([spec_...]), the columns that the three reconciliation passes leave,
    and what the cleaner does to one column of a table of text and boolean
    columns. *)

Section Statements.
Context {P : Pandas}.

(** A string that does not begin with a space. *)
Definition no_lead (s : string) : Prop :=
  match s with EmptyString => True | String c _ => is_space c = false end.

(** The normaliser as section 4.1 of the specification words it: the
    lower-cased copy serves the comparison only and the trimmed original
    text is kept. *)
Definition spec_normalize_cell (c : option string) : option string :=
  match c with
  | None => None
  | Some s =>
      if mem (lower (strip s)) MISSING_MARKERS then None else Some (strip s)
  end.

(** The share the specification words: the cells that convert, over the
    cells that are not missing. *)
Definition spec_converted_share (l : list (option string))
  : option Q :=
  let present := List.length (filter is_some l) in
  if Nat.eqb present 0 then None
  else Some (inject_Z (Z.of_nat (notna_sum (clean_numeric_series (SText l))))
             / inject_Z (Z.of_nat present))%Q.

(** The score as section 4.8 of the specification words it, on the three
    percentages. *)
Definition spec_health_score (missing_percent duplicate_percent
                              outlier_percent : Q) : Q :=
  Qmax 0 (100 - (missing_percent * (40 # 100) + duplicate_percent * (20 # 100)
                 + Qmin (outlier_percent * (30 # 100)) 30)).

(** What one pass leaves in the column it may write. *)
Definition written (mask : list bool) (vals old : list (option Q))
  : list (option Q) :=
  if any mask
  then zip_with3 (fun (m : bool) v o => if m then v else o) mask vals old
  else old.

(** The three columns after the three passes, as lists of cells. *)
Definition reconciled_total (ps qs ts : list (option Q)) : list (option Q) :=
  written
    (zip_with3 (fun p q t => (is_some p && is_some q && is_none t)%bool)
               ps qs ts)
    (map (option_map round2) (zip_with omul ps qs)) ts.

Definition reconciled_price (ps qs ts : list (option Q)) : list (option Q) :=
  let ts := reconciled_total ps qs ts in
  written
    (zip_with3 (fun t q p =>
                  (is_some t && is_some q && is_none p && ne0 q)%bool)
               ts qs ps)
    (map (option_map round2) (zip_with odiv ts qs)) ps.

Definition reconciled_qty (ps qs ts : list (option Q)) : list (option Q) :=
  let ts' := reconciled_total ps qs ts in
  let ps' := reconciled_price ps qs ts in
  written
    (zip_with3 (fun t p q =>
                  (is_some t && is_some p && is_none q && ne0 p)%bool)
               ts' ps' qs)
    (map (option_map round2) (zip_with odiv ts' ps')) qs.

(** One row through the three passes, each pass reading what the earlier
    ones wrote; and the same with every pass reading the row as it was. *)
Definition reconcile_row (r : option Q * option Q * option Q)
  : option Q * option Q * option Q :=
  let '(p, q, t) := r in
  let t1 := if (is_some p && is_some q && is_none t)%bool
            then option_map round2 (omul p q) else t in
  let p1 := if (is_some t1 && is_some q && is_none p && ne0 q)%bool
            then option_map round2 (odiv t1 q) else p in
  let q1 := if (is_some t1 && is_some p1 && is_none q && ne0 p1)%bool
            then option_map round2 (odiv t1 p1) else q in
  (p1, q1, t1).

Definition reconcile_row_snapshot (r : option Q * option Q * option Q)
  : option Q * option Q * option Q :=
  let '(p, q, t) := r in
  let t1 := if (is_some p && is_some q && is_none t)%bool
            then option_map round2 (omul p q) else t in
  let p1 := if (is_some t && is_some q && is_none p && ne0 q)%bool
            then option_map round2 (odiv t q) else p in
  let q1 := if (is_some t && is_some p && is_none q && ne0 p)%bool
            then option_map round2 (odiv t p) else q in
  (p1, q1, t1).

(** The call of [clean_dataset]: the three column names of the schema. *)
Definition reconcile (df : Table) (actions : list Action)
  : Result (Table * nat * list Action) :=
  _reconcile_price_qty_total df "price_per_unit" "quantity" "total_spent"
                             actions.

Definition retail (ps qs ts : list (option Q)) : Table :=
  mkTable (List.length ps)
          [("price_per_unit", SNum ps); ("quantity", SNum qs);
           ("total_spent", SNum ts)].

(** Cell [i] of a float column of the table. *)
Definition float_cell (df : Table) (col : string) (i : nat)
  : option (option Q) :=
  match get df col with
  | Some (SNum l) => nth_error l i
  | _ => None
  end.

(** A loop whose step rewrites the column it visits, and only that one, is a
    map over the columns; its log is the concatenation of what the columns
    record, in column order. *)
Definition per_column (f : string -> Series -> Series) (df : Table) : Table :=
  mkTable (nrows df) (map (fun c => (fst c, f (fst c) (snd c))) (columns df)).

Definition per_column_log (g : string -> Series -> list Action) (df : Table)
  : list Action :=
  flat_map (fun c => g (fst c) (snd c)) (columns df).

(** A text or a boolean column. *)
Definition plain_col (s : Series) : bool :=
  (is_text_dtype s || is_bool_dtype s)%bool.

(** A table of text and boolean columns with distinct names, none of which
    is the date column or one of the three numeric columns of the schema. *)
Definition plain_table (df : Table) : Prop :=
  NoDup (names df)
  /\ Forall (fun c => plain_col (snd c) = true) (columns df)
  /\ (forall n, In n ["transaction_date"; "price_per_unit"; "quantity";
                      "total_spent"] -> ~ In n (names df)).

Definition bool_fill_value (l : list (option bool)) : bool :=
  match mode_bool (somes l) with
  | Some m => m
  | None => false
  end.

(** What the boolean imputation leaves in one column, and what it logs. *)
Definition bool_filled (s : Series) : Series :=
  if is_boolean s then
    let s1 := _parse_bool s in
    if Nat.eqb (isna_sum s1) 0 then s1
    else match s1 with
         | SBoolean l => SBoolean (fillna (bool_fill_value l) l)
         | _ => s1
         end
  else s.

Definition bool_fill_log (col : string) (s : Series) : list Action :=
  if is_boolean s then
    let s1 := _parse_bool s in
    if Nat.eqb (isna_sum s1) 0 then []
    else match s1 with
         | SBoolean l =>
             [FillMissingBool col (bool_fill_value l) (isna_sum s1)
                (isna_sum (SBoolean (fillna (bool_fill_value l) l)))]
         | _ => []
         end
  else [].

(** The same for the categorical imputation. *)
Definition unknown_filled (s : Series) : Series :=
  if is_numeric_dtype s then s
  else if Nat.eqb (isna_sum s) 0 then s
  else fillna_unknown s.

Definition unknown_fill_log (col : string) (s : Series) : list Action :=
  if is_numeric_dtype s then []
  else if Nat.eqb (isna_sum s) 0 then []
  else [FillMissingCategorical col (isna_sum s) (isna_sum (fillna_unknown s))].

Definition parse_flag (name : string) (s : Series) : Series :=
  if String.eqb name "discount_applied" then _parse_bool s else s.

Definition parse_note (df : Table) : list Action :=
  match get df "discount_applied" with
  | Some _ => [TryParseBool "discount_applied"]
  | None => []
  end.

(** The table and the log of [clean_dataset] on a plain table. *)
Definition flagged (df : Table) : Table :=
  per_column parse_flag (normalize_strings df).

Definition plain_cleaned (df : Table) : Table :=
  per_column (fun _ => unknown_filled)
             (per_column (fun _ => bool_filled) (flagged df)).

Definition plain_log (df : Table) : list Action :=
  (([NormalizeStrings] ++ parse_note (normalize_strings df))
   ++ per_column_log bool_fill_log (flagged df))
  ++ per_column_log unknown_fill_log
       (per_column (fun _ => bool_filled) (flagged df)).

(** One column through the pipeline, on a plain table. *)
Definition final_column (name : string) (s : Series) : Series :=
  unknown_filled (bool_filled (parse_flag name (clean_normalize_series s))).

(** What the pipeline leaves: a complete boolean column, or a complete text
    column of normalised cells that is not the flag column. *)
Definition settled (name : string) (s : Series) : Prop :=
  match s with
  | SText l =>
      name <> "discount_applied" /\ count_none l = 0
      /\ map clean_normalize_cell l = l
  | SBoolean l => count_none l = 0
  | _ => False
  end.


(** The second run: the cleaner on the table that the cleaner returned. *)
Definition clean_twice (df : Table)
  : Result (Table * list Action) :=
  '(cleaned, _) <- clean_dataset df ;; clean_dataset cleaned.

(** The flag column after the normalisation and the boolean parse. *)
Definition parsed_flags (l : list (option string)) : list (option bool) :=
  map parse_bool_cell (map clean_normalize_cell l).

(** The count that the three passes add up: the cells that the masks
    select. *)
Definition reconciled_filled (ps qs ts : list (option Q)) : nat :=
  let ts' := reconciled_total ps qs ts in
  let ps' := reconciled_price ps qs ts in
  mask_sum (zip_with3 (fun p q t => (is_some p && is_some q && is_none t)%bool)
                      ps qs ts)
  + mask_sum (zip_with3 (fun t q p =>
                           (is_some t && is_some q && is_none p && ne0 q)%bool)
                        ts' qs ps)
  + mask_sum (zip_with3 (fun t p q =>
                           (is_some t && is_some p && is_none q && ne0 p)%bool)
                        ts' ps' qs).

(** The missing cells of a row, and the passes that select it. *)
Definition row_missing (r : option Q * option Q * option Q) : nat :=
  let '(p, q, t) := r in
  Nat.b2n (is_none p) + Nat.b2n (is_none q) + Nat.b2n (is_none t).

Definition row_fills (r : option Q * option Q * option Q) : nat :=
  let '(p, q, t) := r in
  let m1 := (is_some p && is_some q && is_none t)%bool in
  let t1 := if m1 then option_map round2 (omul p q) else t in
  let m2 := (is_some t1 && is_some q && is_none p && ne0 q)%bool in
  let p1 := if m2 then option_map round2 (odiv t1 q) else p in
  let m3 := (is_some t1 && is_some p1 && is_none q && ne0 p1)%bool in
  Nat.b2n m1 + Nat.b2n m2 + Nat.b2n m3.



(** A table of [n] rows with the column names [ns], every column of which
    has [n] cells. *)
Definition shape_ok (n : nat) (ns : list string) (df : Table) : Prop :=
  nrows df = n /\ names df = ns
  /\ Forall (fun c => len (snd c) = n) (columns df).

(** The log [a'] continues the log [a]. *)
Definition extends (a a' : list Action) : Prop := exists rest, a' = a ++ rest.

(** A state of the pipeline that has the shape and continues the log. *)
Definition keeps (n : nat) (ns : list string) (a : list Action)
  (st : Table * list Action) : Prop :=
  shape_ok n ns (fst st) /\ extends a (snd st).

(** A result that is a value with the property [I], or the failure that
    marks the limit of the embedding; in particular not a [ValueError]. *)
Definition settles {A} (I : A -> Prop) (r : Result A) : Prop :=
  match r with
  | Ok a => I a
  | Raise e => e = OutOfModel
  end.



End Statements.

(* ================================================================== *)
(** * Part II. Properties *)
(* ================================================================== *)

(** ** Strings *)

Lemma lower_char_idem c : lower_char (lower_char c) = lower_char c.
Proof. destruct c as [[] [] [] [] [] [] [] []]; reflexivity. Qed.

Lemma is_space_lower_char c : is_space (lower_char c) = is_space c.
Proof. destruct c as [[] [] [] [] [] [] [] []]; reflexivity. Qed.

Lemma lower_idem s : lower (lower s) = lower s.
Proof.
  induction s as [|c s IH]; simpl; [reflexivity|].
  now rewrite lower_char_idem, IH.
Qed.

Lemma lstrip_lower s : lstrip (lower s) = lower (lstrip s).
Proof.
  induction s as [|c s IH]; simpl; [reflexivity|].
  rewrite is_space_lower_char. destruct (is_space c); [exact IH|reflexivity].
Qed.

Lemma lower_nil s : lower s = EmptyString <-> s = EmptyString.
Proof. destruct s; simpl; split; congruence. Qed.

Lemma rstrip_lower s : rstrip (lower s) = lower (rstrip s).
Proof.
  induction s as [|c s IH]; simpl; [reflexivity|].
  rewrite IH, is_space_lower_char.
  destruct (rstrip s) as [|d r]; simpl; [|reflexivity].
  destruct (is_space c); reflexivity.
Qed.

Lemma strip_lower s : strip (lower s) = lower (strip s).
Proof. unfold strip. now rewrite lstrip_lower, rstrip_lower. Qed.

Lemma lstrip_no_lead s : no_lead (lstrip s).
Proof.
  induction s as [|c s IH]; simpl; [exact I|].
  destruct (is_space c) eqn:E; [exact IH|exact E].
Qed.

Lemma lstrip_fix s : no_lead s -> lstrip s = s.
Proof. destruct s as [|c s]; simpl; [reflexivity|]. now intros ->. Qed.

Lemma rstrip_no_lead s : no_lead s -> no_lead (rstrip s).
Proof.
  destruct s as [|c s]; simpl; [trivial|]. intros E.
  destruct (rstrip s); simpl; [rewrite E|]; exact E.
Qed.

Lemma rstrip_idem s : rstrip (rstrip s) = rstrip s.
Proof.
  induction s as [|c s IH]; simpl; [reflexivity|].
  destruct (rstrip s) as [|d r] eqn:E.
  - destruct (is_space c) eqn:Ec; simpl; [reflexivity|]. now rewrite Ec.
  - change (rstrip (String c (String d r))) with
      (match rstrip (String d r) with
       | EmptyString => if is_space c then EmptyString else String c EmptyString
       | r' => String c r'
       end).
    now rewrite IH.
Qed.

Lemma strip_idem s : strip (strip s) = strip s.
Proof.
  unfold strip.
  rewrite (lstrip_fix (rstrip (lstrip s))).
  - apply rstrip_idem.
  - apply rstrip_no_lead, lstrip_no_lead.
Qed.

(** ** Missing-token normalisation *)

Lemma normalize_cell_idem c : normalize_cell (normalize_cell c) = normalize_cell c.
Proof.
  destruct c as [s|]; [|reflexivity].
  unfold normalize_cell, option_map_str, replace_na.
  destruct (mem (lower (strip s)) MISSING_MARKERS) eqn:E; [reflexivity|].
  now rewrite strip_lower, strip_idem, lower_idem, E.
Qed.

Lemma clean_normalize_cell_idem c :
  clean_normalize_cell (clean_normalize_cell c) = clean_normalize_cell c.
Proof.
  destruct c as [s|]; [|reflexivity].
  unfold clean_normalize_cell, option_map_str, replace_na.
  destruct (mem (strip s) CLEAN_MARKERS) eqn:E; [reflexivity|].
  now rewrite strip_idem, E.
Qed.

Lemma normalize_series_idem s :
  normalize_series (normalize_series s) = normalize_series s.
Proof.
  destruct s; simpl; try reflexivity.
  rewrite map_map. f_equal. apply map_ext. intros; apply normalize_cell_idem.
Qed.

Lemma clean_normalize_series_idem s :
  clean_normalize_series (clean_normalize_series s) = clean_normalize_series s.
Proof.
  destruct s; simpl; try reflexivity.
  rewrite map_map. f_equal. apply map_ext. intros; apply clean_normalize_cell_idem.
Qed.

(** C9. Missing-token normalisation is idempotent: on every table, the
    profiler's normaliser applied twice gives the table it gives when applied
    once, and so does the normalisation stage of the cleaner. *)
Theorem normalize_missing_tokens_idempotent (df : Table) :
  _normalize_missing_tokens (_normalize_missing_tokens df)
  = _normalize_missing_tokens df
  /\ normalize_strings (normalize_strings df) = normalize_strings df.
Proof.
  unfold _normalize_missing_tokens, normalize_strings; simpl.
  split; f_equal; rewrite map_map; apply map_ext; intros [n s]; simpl; f_equal.
  - apply normalize_series_idem.
  - apply clean_normalize_series_idem.
Qed.

(** C6, as stated, fails on the cell [N]: it matches no marker, and the
    normaliser keeps [n], not the trimmed original [N]. *)
Lemma normalize_cell_changes_case :
  mem (lower (strip "N")) MISSING_MARKERS = false
  /\ normalize_cell (Some "N") = Some "n"
  /\ normalize_cell (Some "N") <> Some (strip "N")
  /\ normalize_cell (Some "N") <> spec_normalize_cell (Some "N").
Proof. repeat split; try reflexivity; discriminate. Qed.

(** C6, amended. For every textual cell whose trimmed value does not match a
    missing marker case-insensitively, the normaliser keeps the trimmed text
    in lower case; it agrees with the wording of the specification exactly on
    the cells that are missing afterwards or whose trimmed text is already in
    lower case. *)
Theorem normalize_cell_keeps_lowered (s : string) :
  mem (lower (strip s)) MISSING_MARKERS = false ->
  normalize_cell (Some s) = Some (lower (strip s))
  /\ (normalize_cell (Some s) = spec_normalize_cell (Some s)
      <-> lower (strip s) = strip s).
Proof.
  intros E. unfold normalize_cell, spec_normalize_cell, option_map_str, replace_na.
  rewrite E.
  split; [reflexivity|]. split; congruence.
Qed.

Lemma normalize_cell_keeps_lowered_witness :
  normalize_cell (Some " Hello ") = Some "hello".
Proof.
  apply (normalize_cell_keeps_lowered " Hello "). reflexivity.
Defined.

(** C5. The normalisation stage of the cleaner compares the trimmed text
    with its markers as they are spelt: [NA], whitespace, [?] and [None]
    become missing and [N] stays, but [n/a], [na], [none] and [NULL] are
    kept, although the profiler's normaliser takes each of them for a
    missing cell. *)
Theorem clean_normalize_is_case_sensitive :
  clean_normalize_cell (Some "NA") = None
  /\ clean_normalize_cell (Some "  ") = None
  /\ clean_normalize_cell (Some "?") = None
  /\ clean_normalize_cell (Some "None") = None
  /\ clean_normalize_cell (Some "N") = Some "N"
  /\ clean_normalize_cell (Some "n/a") = Some "n/a"
  /\ clean_normalize_cell (Some "na") = Some "na"
  /\ clean_normalize_cell (Some "none") = Some "none"
  /\ clean_normalize_cell (Some "NULL") = Some "NULL"
  /\ normalize_cell (Some "n/a") = None
  /\ normalize_cell (Some "na") = None
  /\ normalize_cell (Some "none") = None
  /\ normalize_cell (Some "NULL") = None.
Proof. repeat split. Qed.

(** ** Type inference *)

Lemma Qlt_bool_iff x y : Qlt_bool x y = true <-> (x < y)%Q.
Proof.
  unfold Qlt_bool. rewrite negb_true_iff.
  split; intros H.
  - apply Qnot_le_lt. intros L. apply Qle_bool_iff in L. congruence.
  - destruct (Qle_bool y x) eqn:E; [|reflexivity].
    apply Qle_bool_iff in E. exfalso. exact (Qlt_not_le _ _ H E).
Qed.

Lemma ratio_gt_iff (a : Z) (b : positive) (k n : nat) :
  (0 < n)%nat ->
  ((a # b) < inject_Z (Z.of_nat k) / inject_Z (Z.of_nat n))%Q
  <-> (a * Z.of_nat n < Z.of_nat k * Zpos b)%Z.
Proof.
  intros Hn. destruct n as [|n]; [lia|].
  unfold Qlt, Qdiv, Qmult, Qinv, inject_Z.
  cbn [Qnum Qden Z.of_nat].
  rewrite Pos2Z.inj_mul. cbn [Qnum Qden]. lia.
Qed.

Lemma gt_notna_mean_iff (s : Series) (a : Z) (b : positive) :
  gt (notna_mean s) (a # b) = true
  <-> (0 < len s)%nat
      /\ (a * Z.of_nat (len s) < Z.of_nat (notna_sum s) * Zpos b)%Z.
Proof.
  unfold notna_mean, gt.
  destruct (Nat.eqb_spec (len s) 0) as [E|E].
  - split; [discriminate|]. intros [H _]. lia.
  - rewrite Qlt_bool_iff, ratio_gt_iff by lia. split; [intros H|intros [_ H]]; auto.
    split; [lia|exact H].
Qed.

Lemma len_clean_numeric_series {P : Pandas} (l : list (option string)) :
  len (clean_numeric_series (SText l)) = List.length l.
Proof. simpl. apply length_map. Qed.

Lemma text_of_dtype (series : Series) :
  is_datetime64_any_dtype series = false ->
  is_bool_dtype series = false ->
  is_numeric_dtype series = false ->
  exists l, series = SText l.
Proof. destruct series; simpl; try discriminate. intros; eauto. Qed.

(** C2, as stated, fails on the text column [1, missing]: its one
    non-missing cell converts, a share of 1 of the non-missing cells, and
    the column is not typed numeric, as one cell in two converts. *)
Lemma infer_counts_missing_cells :
  let col := [Some "1"; None] in
  @spec_converted_share decimal_pandas col = Some 1%Q
  /\ gt (@spec_converted_share decimal_pandas col) (8 # 10) = true
  /\ @infer_column_type decimal_pandas (SText col) = categorical.
Proof. repeat split. Qed.

(** C2, amended. A column that is not typed datetime, boolean or numeric is
    classified numeric exactly when the cells that the numeric coercer
    converts are more than 0.8 of all its cells, the missing ones counted
    in the denominator: 4 * len < 5 * converted. *)
Theorem infer_numeric_iff_converted_share {P : Pandas} (series : Series) :
  is_datetime64_any_dtype series = false ->
  is_bool_dtype series = false ->
  is_numeric_dtype series = false ->
  (infer_column_type series = numeric
   <-> 4 * len series < 5 * notna_sum (clean_numeric_series series)).
Proof.
  intros Hd Hb Hn. destruct (text_of_dtype series Hd Hb Hn) as [l ->].
  unfold infer_column_type.
  cbn [is_datetime64_any_dtype is_bool_dtype is_numeric_dtype].
  pose proof (gt_notna_mean_iff (clean_numeric_series (SText l)) 8 10) as G.
  rewrite len_clean_numeric_series in G. cbn [len].
  destruct (gt (notna_mean (clean_numeric_series (SText l))) (8 # 10)).
  - split; [intros _|reflexivity]. destruct G as [G _].
    destruct (G eq_refl) as [_ G']. lia.
  - split.
    + intros H. exfalso.
      destruct (Nat.eqb (List.length l) 0); [discriminate|].
      destruct (Nat.eqb (nunique (SText l)) 2); [discriminate|].
      destruct (Qlt_bool _ _); discriminate.
    + intros H. destruct G as [_ G].
      assert (L : notna_sum (clean_numeric_series (SText l)) <= List.length l).
      { unfold notna_sum. rewrite len_clean_numeric_series. lia. }
      assert (false = true); [|discriminate]. apply G. split; lia.
Qed.

Lemma infer_numeric_iff_converted_share_witness :
  @infer_column_type decimal_pandas
    (SText [Some "$1,000"; Some "2.5"; Some "3 [est]"; Some "-4"; Some "5";
            Some "n/a"]) = numeric.
Proof.
  apply (@infer_numeric_iff_converted_share decimal_pandas);
    try reflexivity.
  vm_compute. lia.
Defined.

(** C3, as stated, fails on the float column [0, 1]: two distinct values,
    typed numeric.  A two-valued text column of numerals and a two-valued
    datetime column are not binary either. *)
Lemma two_valued_numeric_column_not_binary :
  nunique (SNum [Some 0%Q; Some 1%Q]) = 2
  /\ @infer_column_type decimal_pandas (SNum [Some 0%Q; Some 1%Q]) = numeric
  /\ nunique (SText [Some "1"; Some "2"]) = 2
  /\ @infer_column_type decimal_pandas (SText [Some "1"; Some "2"]) = numeric
  /\ nunique (STime [Some 0%Z; Some 1%Z]) = 2
  /\ @infer_column_type decimal_pandas (STime [Some 0%Z; Some 1%Z]) = datetime.
Proof. repeat split. Qed.

(** C3, amended. A column that is not typed datetime, boolean or numeric,
    of which the numeric coercer converts at most 0.8 of the cells, and that
    has exactly two distinct non-missing values is classified binary,
    whatever its cardinality ratio. *)
Theorem two_valued_text_column_is_binary {P : Pandas} (series : Series) :
  is_datetime64_any_dtype series = false ->
  is_bool_dtype series = false ->
  is_numeric_dtype series = false ->
  5 * notna_sum (clean_numeric_series series) <= 4 * len series ->
  nunique series = 2 ->
  infer_column_type series = binary.
Proof.
  intros Hd Hb Hn Hshare H2.
  destruct (text_of_dtype series Hd Hb Hn) as [l ->].
  unfold infer_column_type.
  cbn [is_datetime64_any_dtype is_bool_dtype is_numeric_dtype].
  destruct (gt (notna_mean (clean_numeric_series (SText l))) (8 # 10)) eqn:G.
  - exfalso. apply gt_notna_mean_iff in G. destruct G as [_ G].
    rewrite len_clean_numeric_series in G. cbn [len] in Hshare. lia.
  - cbn [len]. destruct l as [|c l]; [discriminate H2|].
    cbn [List.length Nat.eqb]. now rewrite H2.
Qed.

Lemma two_valued_text_column_is_binary_witness :
  @infer_column_type decimal_pandas
    (SText [Some "yes"; Some "no"; Some "yes"; None]) = binary.
Proof.
  apply (@two_valued_text_column_is_binary decimal_pandas);
    try reflexivity.
  vm_compute. lia.
Defined.

(** ** Numeric imputation *)

(** C8, as stated, fails on a column without a missing cell, and on a
    column that the table does not have: the unknown strategy name is never
    looked at and the call returns. *)
Lemma fill_missing_numeric_returns_early :
  let df := mkTable 2 [("x", SNum [Some 1%Q; Some 2%Q])] in
  @_fill_missing_numeric decimal_pandas df "x" "bogus" [] = Ok (df, [])
  /\ @_fill_missing_numeric decimal_pandas df "y" "bogus" [] = Ok (df, []).
Proof. split; reflexivity. Qed.

Lemma strategy_value_unknown (strategy : string) (values : list Q) :
  strategy <> "median" -> strategy <> "mean" -> strategy <> "mode" ->
  strategy_value strategy values
  = Raise (ValueError ("Unknown numeric fill strategy: " ++ strategy)%string).
Proof.
  intros H1 H2 H3. unfold strategy_value.
  apply String.eqb_neq in H1, H2, H3. now rewrite H1, H2, H3.
Qed.

(** C8, amended. With a strategy name outside median, mean and mode,
    numeric imputation raises the configuration error exactly when the
    column is in the table and has a missing cell once coerced to numbers;
    on a column that is absent it returns the table as it is, and on a
    column without a missing cell it returns after the coercion, in both
    cases without an error and without an action. *)
Theorem fill_missing_numeric_unknown_strategy {P : Pandas}
  (df : Table) (col strategy : string) (actions : list Action) :
  strategy <> "median" -> strategy <> "mean" -> strategy <> "mode" ->
  match get df col with
  | None => _fill_missing_numeric df col strategy actions = Ok (df, actions)
  | Some s =>
      if Nat.eqb (isna_sum (_to_numeric s)) 0 then
        _fill_missing_numeric df col strategy actions
        = Ok (set df col (_to_numeric s), actions)
      else
        _fill_missing_numeric df col strategy actions
        = Raise (ValueError ("Unknown numeric fill strategy: " ++ strategy)%string)
  end.
Proof.
  intros H1 H2 H3. unfold _fill_missing_numeric.
  destruct (get df col) as [s|]; [|reflexivity].
  destruct (Nat.eqb (isna_sum (_to_numeric s)) 0); [reflexivity|].
  now rewrite strategy_value_unknown.
Qed.

Lemma fill_missing_numeric_unknown_strategy_witness :
  @_fill_missing_numeric decimal_pandas
    (mkTable 2 [("x", SText [Some "1"; Some "oops"])]) "x" "bogus" []
  = Raise (ValueError "Unknown numeric fill strategy: bogus").
Proof.
  exact (@fill_missing_numeric_unknown_strategy decimal_pandas
           (mkTable 2 [("x", SText [Some "1"; Some "oops"])]) "x" "bogus" []
           ltac:(discriminate) ltac:(discriminate) ltac:(discriminate)).
Defined.

(** ** The health score *)

Lemma round2_comp (x y : Q) : (x == y)%Q -> round2 x = round2 y.
Proof.
  intros E. unfold round2, Qlt_bool.
  assert (F : Qfloor (x * 100) = Qfloor (y * 100)) by now rewrite E.
  rewrite F.
  assert (R : (x * 100 - inject_Z (Qfloor (y * 100))
               == y * 100 - inject_Z (Qfloor (y * 100)))%Q) by now rewrite E.
  now rewrite !R.
Qed.

Lemma round2_between (x : Q) :
  (0 <= x)%Q -> (x <= 100)%Q -> (0 <= round2 x)%Q /\ (round2 x <= 100)%Q.
Proof.
  intros L U. unfold round2. rewrite Qred_correct.
  set (fl := Qfloor (x * 100)).
  assert (L' : (0 <= fl)%Z).
  { change 0%Z with (Qfloor (inject_Z 0)). apply Qfloor_resp_le.
    change (inject_Z 0) with (0 * 100)%Q. apply Qmult_le_compat_r; [exact L|].
    discriminate. }
  assert (U' : (fl <= 10000)%Z).
  { change 10000%Z with (Qfloor (inject_Z 10000)). apply Qfloor_resp_le.
    change (inject_Z 10000) with (100 * 100)%Q.
    apply Qmult_le_compat_r; [exact U|]. discriminate. }
  set (up := if Qlt_bool _ _ then false else _).
  assert (Z : (0 <= (if up then fl + 1 else fl) <= 10000)%Z).
  { destruct up eqn:Eup; [|lia].
    assert (fl <> 10000%Z); [|lia]. intros E.
    subst up. rewrite E in Eup.
    assert (X : Qlt_bool (x * 100 - inject_Z 10000) (1 # 2) = true).
    { apply Qlt_bool_iff.
      apply Qle_lt_trans with (y := 0%Q); [|reflexivity].
      apply Qmult_le_compat_r with (z := 100%Q) in U; [|discriminate].
      unfold Qminus. apply Qle_minus_iff in U. apply Qle_minus_iff.
      ring_simplify. ring_simplify in U. exact U. }
    rewrite X in Eup. discriminate. }
  generalize dependent (if up then (fl + 1)%Z else fl). intros z Z.
  split.
  - apply Qle_shift_div_l; [reflexivity|]. 
    rewrite Qmult_0_l. change 0%Q with (inject_Z 0). rewrite <- Zle_Qle. lia.
  - apply Qle_shift_div_r; [reflexivity|].
    change (100 * 100)%Q with (inject_Z 10000). rewrite <- Zle_Qle. lia.
Qed.

Lemma percent_nonneg (k n : nat) : (0 <= percent k n)%Q.
Proof.
  unfold percent, Qdiv.
  apply Qmult_le_0_compat; [|discriminate].
  apply Qmult_le_0_compat.
  - change 0%Q with (inject_Z 0). rewrite <- Zle_Qle. lia.
  - apply Qinv_le_0_compat. change 0%Q with (inject_Z 0).
    rewrite <- Zle_Qle. lia.
Qed.

Lemma spec_health_score_between (mp dp op : Q) :
  (0 <= mp)%Q -> (0 <= dp)%Q -> (0 <= op)%Q ->
  (0 <= spec_health_score mp dp op)%Q /\ (spec_health_score mp dp op <= 100)%Q.
Proof.
  intros Hm Hd Ho. unfold spec_health_score. split; [apply Q.le_max_l|].
  apply Q.max_lub; [discriminate|].
  assert (A : (0 <= mp * (40 # 100))%Q)
    by (apply Qmult_le_0_compat; [exact Hm|discriminate]).
  assert (B : (0 <= dp * (20 # 100))%Q)
    by (apply Qmult_le_0_compat; [exact Hd|discriminate]).
  assert (C : (0 <= Qmin (op * (30 # 100)) 30)%Q).
  { apply Q.min_glb; [|discriminate].
    apply Qmult_le_0_compat; [exact Ho|discriminate]. }
  pose proof (Qplus_le_compat _ _ _ _ (Qplus_le_compat _ _ _ _ A B) C) as S.
  apply Qle_minus_iff. apply Qle_minus_iff in S.
  ring_simplify. ring_simplify in S. exact S.
Qed.

Lemma health_nonempty (rows cols m d o : nat) :
  0 < rows -> 0 < cols ->
  health rows cols m d o
  = (Some (round2 (spec_health_score (percent m (rows * cols))
                                     (percent d rows)
                                     (percent o (rows * cols)))),
     round2 (percent m (rows * cols)),
     round2 (percent d rows),
     round2 (percent o (rows * cols))).
Proof.
  intros Hr Hc. unfold health.
  destruct (Nat.eqb_spec rows 0) as [E|_]; [lia|].
  destruct (Nat.eqb_spec (rows * cols) 0) as [E|_]; [nia|].
  cbn [orb]. unfold percent.
  match goal with
  | |- (Some (round2 ?a), _, _, _) = (Some (round2 ?b), _, _, _) =>
      assert (E : round2 a = round2 b)
  end.
  { apply round2_comp. unfold spec_health_score.
    apply Q.max_compat; [reflexivity|].
    apply Qminus_comp; [reflexivity|].
    apply Qplus_comp; [ring|].
    apply Q.min_compat; [ring|reflexivity]. }
  now rewrite E.
Qed.

Lemma health_empty (rows cols m d o : nat) :
  rows = 0 \/ cols = 0 ->
  health rows cols m d o = (None, 0%Q, 0%Q, 0%Q).
Proof.
  intros H. unfold health.
  destruct (Nat.eqb_spec rows 0) as [E|E]; [reflexivity|].
  destruct (Nat.eqb_spec (rows * cols) 0) as [E'|E']; [reflexivity|].
  destruct H; [lia|nia].
Qed.




(** ** Tables: reading and writing a column *)

Lemma lookup_update_same col v cs s :
  lookup col cs = Some s -> lookup col (update col v cs) = Some v.
Proof.
  induction cs as [|[n x] cs IH]; simpl; [discriminate|].
  destruct (String.eqb n col) eqn:E; simpl; rewrite E; auto.
Qed.

Lemma lookup_update_other col col' v cs :
  col <> col' -> lookup col' (update col v cs) = lookup col' cs.
Proof.
  intros N. induction cs as [|[n x] cs IH]; simpl; [reflexivity|].
  destruct (String.eqb n col) eqn:E; simpl.
  - apply String.eqb_eq in E. subst n.
    destruct (String.eqb col col') eqn:E'; [|reflexivity].
    apply String.eqb_eq in E'. contradiction.
  - now rewrite IH.
Qed.

Lemma update_same col cs s : lookup col cs = Some s -> update col s cs = cs.
Proof.
  induction cs as [|[n x] cs IH]; simpl; [reflexivity|].
  destruct (String.eqb n col) eqn:E.
  - now intros [= ->].
  - intros H. now rewrite IH.
Qed.

Lemma update_absent col v cs : lookup col cs = None -> update col v cs = cs.
Proof.
  induction cs as [|[n x] cs IH]; simpl; [reflexivity|].
  destruct (String.eqb n col); [discriminate|]. intros H. now rewrite IH.
Qed.

Lemma map_fst_update col v cs : map fst (update col v cs) = map fst cs.
Proof.
  induction cs as [|[n x] cs IH]; simpl; [reflexivity|].
  destruct (String.eqb n col); simpl; [reflexivity|now rewrite IH].
Qed.

Lemma get_set_same df col v s :
  get df col = Some s -> get (set df col v) col = Some v.
Proof. apply lookup_update_same. Qed.

Lemma get_set_other df col col' v :
  col <> col' -> get (set df col v) col' = get df col'.
Proof. apply lookup_update_other. Qed.

Lemma set_same df col s : get df col = Some s -> set df col s = df.
Proof.
  intros H. destruct df as [n cs]. unfold set; simpl. f_equal.
  now apply update_same.
Qed.

Lemma names_set df col v : names (set df col v) = names df.
Proof. apply map_fst_update. Qed.

Lemma lookup_none_iff col cs : lookup col cs = None <-> ~ In col (map fst cs).
Proof.
  induction cs as [|[n x] cs IH]; simpl; [tauto|].
  destruct (String.eqb_spec n col) as [E|E].
  - split; [discriminate|]. intros H. exfalso. apply H. now left.
  - rewrite IH. split; [intros H [F|F]; auto|intros H F; apply H; now right].
Qed.

(** ** Reconciliation *)

Lemma nth_error_zip_with {A B C} (f : A -> B -> C) l1 l2 i x y :
  nth_error l1 i = Some x -> nth_error l2 i = Some y ->
  nth_error (zip_with f l1 l2) i = Some (f x y).
Proof.
  revert l2 i. induction l1 as [|a l1 IH]; intros [|b l2] [|i]; simpl;
    try discriminate.
  - now intros [= ->] [= ->].
  - apply IH.
Qed.

Lemma nth_error_zip_with3 {A B C D} (f : A -> B -> C -> D) l1 l2 l3 i x y z :
  nth_error l1 i = Some x -> nth_error l2 i = Some y ->
  nth_error l3 i = Some z ->
  nth_error (zip_with3 f l1 l2 l3) i = Some (f x y z).
Proof.
  revert l2 l3 i.
  induction l1 as [|a l1 IH]; intros [|b l2] [|c l3] [|i]; simpl;
    try discriminate.
  - now intros [= ->] [= ->] [= ->].
  - apply IH.
Qed.

Lemma written_unselected mask vals old i v x :
  nth_error mask i = Some false -> nth_error vals i = Some v ->
  nth_error old i = Some x ->
  nth_error (written mask vals old) i = Some x.
Proof.
  intros Hm Hv Ho. unfold written. destruct (any mask); [|exact Ho].
  now rewrite (nth_error_zip_with3 _ _ _ _ _ _ _ _ Hm Hv Ho).
Qed.

Lemma pass_written {X} (df : Table) (col : string) (old : list (option Q))
  (mask : list bool) (vals : list (option Q)) (filled : nat)
  (k : Table * Series * nat -> Result X) :
  get df col = Some (SNum old) ->
  bind (if any mask
        then t' <- loc_set (SNum old) mask vals ;;
             Ok (set df col t', t', filled + mask_sum mask)
        else Ok (df, SNum old, filled)) k
  = k (set df col (SNum (written mask vals old)),
       SNum (written mask vals old),
       if any mask then filled + mask_sum mask else filled).
Proof.
  intros G. unfold written. destruct (any mask); simpl; [reflexivity|].
  now rewrite (set_same _ _ _ G).
Qed.

Lemma last_pass_written {X} (df : Table) (col : string) (old : list (option Q))
  (mask : list bool) (vals : list (option Q)) (filled : nat)
  (k : Table * nat -> Result X) :
  get df col = Some (SNum old) ->
  bind (if any mask
        then q' <- loc_set (SNum old) mask vals ;;
             Ok (set df col q', filled + mask_sum mask)
        else Ok (df, filled)) k
  = k (set df col (SNum (written mask vals old)),
       if any mask then filled + mask_sum mask else filled).
Proof.
  intros G. unfold written. destruct (any mask); simpl; [reflexivity|].
  now rewrite (set_same _ _ _ G).
Qed.

Lemma reconcile_float_columns {P : Pandas} (df : Table)
  (price qty total : string) (actions : list Action)
  (ps qs ts : list (option Q)) :
  price <> qty -> price <> total -> qty <> total ->
  get df price = Some (SNum ps) ->
  get df qty = Some (SNum qs) ->
  get df total = Some (SNum ts) ->
  exists filled actions',
    _reconcile_price_qty_total df price qty total actions
    = Ok (set (set (set df total (SNum (reconciled_total ps qs ts)))
                   price (SNum (reconciled_price ps qs ts)))
              qty (SNum (reconciled_qty ps qs ts)),
          filled, actions').
Proof.
  intros Npq Npt Nqt Gp Gq Gt.
  unfold _reconcile_price_qty_total. cbn [fold_left].
  rewrite Gp. cbn [_to_numeric]. rewrite (set_same _ _ _ Gp).
  rewrite Gq. cbn [_to_numeric]. rewrite (set_same _ _ _ Gq).
  rewrite Gt. cbn [_to_numeric]. rewrite (set_same _ _ _ Gt).
  rewrite Gp, Gq, Gt. cbn [as_floats].
  rewrite (pass_written df total ts) by exact Gt.
  cbv beta iota. cbn [as_floats]. fold (reconciled_total ps qs ts).
  set (df1 := set df total (SNum (reconciled_total ps qs ts))).
  assert (Gp1 : get df1 price = Some (SNum ps)).
  { unfold df1. rewrite get_set_other; [exact Gp|congruence]. }
  rewrite (pass_written df1 price ps) by exact Gp1.
  cbv beta iota. cbn [as_floats]. fold (reconciled_price ps qs ts).
  set (df2 := set df1 price (SNum (reconciled_price ps qs ts))).
  assert (Gq2 : get df2 qty = Some (SNum qs)).
  { unfold df2, df1. rewrite !get_set_other; [exact Gq|congruence|congruence]. }
  rewrite (last_pass_written df2 qty qs) by exact Gq2.
  cbv beta iota. fold (reconciled_qty ps qs ts).
  match goal with
  | |- context [Nat.ltb 0 ?f] => destruct (Nat.ltb 0 f); eauto
  end.
Qed.

Lemma reconciled_row_unselected (ps qs ts : list (option Q)) (i : nat)
  (p q t : option Q) :
  nth_error ps i = Some p -> nth_error qs i = Some q ->
  nth_error ts i = Some t ->
  (is_some p && is_some q && is_none t)%bool = false ->
  (is_some t && is_some q && is_none p && ne0 q)%bool = false ->
  (is_some t && is_some p && is_none q && ne0 p)%bool = false ->
  nth_error (reconciled_total ps qs ts) i = Some t
  /\ nth_error (reconciled_price ps qs ts) i = Some p
  /\ nth_error (reconciled_qty ps qs ts) i = Some q.
Proof.
  intros Hp Hq Ht M1 M2 M3.
  assert (T : nth_error (reconciled_total ps qs ts) i = Some t).
  { unfold reconciled_total.
    eapply written_unselected; [| |exact Ht].
    - rewrite (nth_error_zip_with3 _ _ _ _ _ _ _ _ Hp Hq Ht). now rewrite M1.
    - rewrite nth_error_map, (nth_error_zip_with _ _ _ _ _ _ Hp Hq).
      reflexivity. }
  assert (Pr : nth_error (reconciled_price ps qs ts) i = Some p).
  { unfold reconciled_price. cbv zeta.
    eapply written_unselected; [| |exact Hp].
    - rewrite (nth_error_zip_with3 _ _ _ _ _ _ _ _ T Hq Hp). now rewrite M2.
    - rewrite nth_error_map, (nth_error_zip_with _ _ _ _ _ _ T Hq).
      reflexivity. }
  repeat split; [exact T|exact Pr|].
  unfold reconciled_qty. cbv zeta.
  eapply written_unselected; [| |exact Hq].
  - rewrite (nth_error_zip_with3 _ _ _ _ _ _ _ _ T Pr Hq). now rewrite M3.
  - rewrite nth_error_map, (nth_error_zip_with _ _ _ _ _ _ T Pr).
    reflexivity.
Qed.

Lemma reconcile_row_unselected {P : Pandas} (df : Table)
  (actions : list Action) (ps qs ts : list (option Q)) (i : nat)
  (p q t : option Q) :
  get df "price_per_unit" = Some (SNum ps) ->
  get df "quantity" = Some (SNum qs) ->
  get df "total_spent" = Some (SNum ts) ->
  nth_error ps i = Some p -> nth_error qs i = Some q ->
  nth_error ts i = Some t ->
  (is_some p && is_some q && is_none t)%bool = false ->
  (is_some t && is_some q && is_none p && ne0 q)%bool = false ->
  (is_some t && is_some p && is_none q && ne0 p)%bool = false ->
  exists df' filled actions',
    reconcile df actions = Ok (df', filled, actions')
    /\ float_cell df' "price_per_unit" i = Some p
    /\ float_cell df' "quantity" i = Some q
    /\ float_cell df' "total_spent" i = Some t.
Proof.
  intros Gp Gq Gt Hp Hq Ht M1 M2 M3.
  destruct (reconcile_float_columns df "price_per_unit" "quantity"
              "total_spent" actions ps qs ts) as (filled & actions' & E);
    try assumption; try discriminate.
  destruct (reconciled_row_unselected ps qs ts i p q t) as (T & Pr & Qt);
    try assumption.
  eexists _, filled, actions'. split; [exact E|].
  unfold float_cell.
  rewrite get_set_other by discriminate.
  rewrite (get_set_same _ _ _ (SNum ps))
    by (rewrite get_set_other by discriminate; exact Gp).
  rewrite (get_set_same _ _ _ (SNum qs))
    by (rewrite !get_set_other by discriminate; exact Gq).
  rewrite !get_set_other by discriminate.
  rewrite (get_set_same _ _ _ (SNum ts)) by exact Gt.
  auto.
Qed.

(** ** The three passes, row by row *)

Lemma zip_with3_unselected (mask : list bool) (vals old : list (option Q)) :
  any mask = false ->
  List.length mask = List.length old -> List.length vals = List.length old ->
  zip_with3 (fun (m : bool) v o => if m then v else o) mask vals old = old.
Proof.
  revert vals old.
  induction mask as [|m mask IH]; intros [|v vals] [|o old]; simpl;
    try discriminate; try reflexivity.
  destruct m; simpl; [discriminate|].
  intros A L1 L2. f_equal. apply IH; [exact A|lia|lia].
Qed.

Lemma written_zip (mask : list bool) (vals old : list (option Q)) :
  List.length mask = List.length old -> List.length vals = List.length old ->
  written mask vals old
  = zip_with3 (fun (m : bool) v o => if m then v else o) mask vals old.
Proof.
  intros L1 L2. unfold written. destruct (any mask) eqn:A; [reflexivity|].
  symmetry. now apply zip_with3_unselected.
Qed.

Lemma length_zip_with {A B C} (f : A -> B -> C) l1 l2 :
  List.length l1 = List.length l2 ->
  List.length (zip_with f l1 l2) = List.length l1.
Proof.
  revert l2. induction l1 as [|a l1 IH]; intros [|b l2]; simpl;
    try discriminate; auto.
Qed.

Lemma length_zip_with3 {A B C D} (f : A -> B -> C -> D) l1 l2 l3 :
  List.length l1 = List.length l2 -> List.length l2 = List.length l3 ->
  List.length (zip_with3 f l1 l2 l3) = List.length l1.
Proof.
  revert l2 l3. induction l1 as [|a l1 IH]; intros [|b l2] [|c l3]; simpl;
    try discriminate; auto.
Qed.

Ltac lengths :=
  repeat match goal with
         | |- context [List.length (map _ _)] => rewrite length_map
         | |- context [List.length (zip_with3 _ _ _ _)] =>
             rewrite length_zip_with3
         | |- context [List.length (zip_with _ _ _)] => rewrite length_zip_with
         end;
  try congruence.

(** The passes never read a cell that an earlier pass wrote: a pass fills a
    cell of a row whose two other cells are present, and a later pass
    fills only in a row where one of those two is missing.  So the row of
    the source is the same whether [p], [q] and [t] are the columns of the
    frame or copies taken before the first pass. *)
Lemma reconcile_row_reads_no_written_cell (r : option Q * option Q * option Q) :
  reconcile_row r = reconcile_row_snapshot r.
Proof.
  destruct r as [[[p|] [q|]] [t|]]; cbn; try reflexivity;
    destruct (Qeq_bool _ 0); reflexivity.
Qed.

Lemma reconciled_rowwise (ps qs ts : list (option Q)) :
  List.length ps = List.length qs -> List.length qs = List.length ts ->
  reconciled_total ps qs ts
  = zip_with3 (fun p q t => snd (reconcile_row (p, q, t))) ps qs ts
  /\ reconciled_price ps qs ts
     = zip_with3 (fun p q t => fst (fst (reconcile_row (p, q, t)))) ps qs ts
  /\ reconciled_qty ps qs ts
     = zip_with3 (fun p q t => snd (fst (reconcile_row (p, q, t)))) ps qs ts.
Proof.
  intros L1 L2.
  assert (T : reconciled_total ps qs ts
              = zip_with3 (fun p q t => snd (reconcile_row (p, q, t)))
                          ps qs ts).
  { unfold reconciled_total. rewrite written_zip.
    - clear L1 L2. revert qs ts.
      induction ps as [|p ps IH]; intros [|q qs] [|t ts]; simpl;
        try reflexivity.
      now rewrite IH.
    - lengths.
    - lengths. }
  assert (Pr : reconciled_price ps qs ts
               = zip_with3 (fun p q t => fst (fst (reconcile_row (p, q, t))))
                           ps qs ts).
  { unfold reconciled_price. cbv zeta. rewrite T. rewrite written_zip.
    - clear L1 L2 T. revert qs ts.
      induction ps as [|p ps IH]; intros [|q qs] [|t ts]; simpl;
        try reflexivity.
      now rewrite IH.
    - lengths.
    - lengths. }
  repeat split; [exact T|exact Pr|].
  unfold reconciled_qty. cbv zeta. rewrite Pr, T. rewrite written_zip.
  - clear L1 L2 T Pr. revert qs ts.
    induction ps as [|p ps IH]; intros [|q qs] [|t ts]; simpl;
      try reflexivity.
    now rewrite IH.
  - lengths.
  - lengths.
Qed.

(** C7. Reconciliation over the price, quantity and total columns: price 10
    and quantity 5 with the total missing give the total 50; total 20 and
    quantity 4 with the price missing give the price 5; total 10 and price 5
    with the quantity missing give the quantity 2.  In every table with the
    three float columns, a row whose price is missing and whose quantity is
    0, and a row whose quantity is missing and whose price is 0, are left as
    they are, and the call returns normally. *)
Theorem reconcile_exact_and_guarded {P : Pandas} :
  reconcile (retail [Some 10%Q] [Some 5%Q] [None]) []
  = Ok (retail [Some 10%Q] [Some 5%Q] [Some 50%Q], 1, [Reconcile 1])
  /\ reconcile (retail [None] [Some 4%Q] [Some 20%Q]) []
     = Ok (retail [Some 5%Q] [Some 4%Q] [Some 20%Q], 1, [Reconcile 1])
  /\ reconcile (retail [Some 5%Q] [None] [Some 10%Q]) []
     = Ok (retail [Some 5%Q] [Some 2%Q] [Some 10%Q], 1, [Reconcile 1])
  /\ (forall df actions ps qs ts i q0 t,
        get df "price_per_unit" = Some (SNum ps) ->
        get df "quantity" = Some (SNum qs) ->
        get df "total_spent" = Some (SNum ts) ->
        nth_error ps i = Some None ->
        nth_error qs i = Some (Some q0) -> (q0 == 0)%Q ->
        nth_error ts i = Some t ->
        exists df' filled actions',
          reconcile df actions = Ok (df', filled, actions')
          /\ float_cell df' "price_per_unit" i = Some None
          /\ float_cell df' "quantity" i = Some (Some q0)
          /\ float_cell df' "total_spent" i = Some t)
  /\ (forall df actions ps qs ts i p0 t,
        get df "price_per_unit" = Some (SNum ps) ->
        get df "quantity" = Some (SNum qs) ->
        get df "total_spent" = Some (SNum ts) ->
        nth_error ps i = Some (Some p0) -> (p0 == 0)%Q ->
        nth_error qs i = Some None ->
        nth_error ts i = Some t ->
        exists df' filled actions',
          reconcile df actions = Ok (df', filled, actions')
          /\ float_cell df' "price_per_unit" i = Some (Some p0)
          /\ float_cell df' "quantity" i = Some None
          /\ float_cell df' "total_spent" i = Some t).
Proof.
  split; [vm_compute; reflexivity|].
  split; [vm_compute; reflexivity|].
  split; [vm_compute; reflexivity|].
  split.
  - intros df actions ps qs ts i q0 t Gp Gq Gt Hp Hq Z Ht.
    apply Qeq_bool_iff in Z.
    apply (reconcile_row_unselected df actions ps qs ts i None (Some q0) t);
      try assumption; destruct t; cbn; rewrite ?Z; reflexivity.
  - intros df actions ps qs ts i p0 t Gp Gq Gt Hp Z Hq Ht.
    apply Qeq_bool_iff in Z.
    apply (reconcile_row_unselected df actions ps qs ts i (Some p0) None t);
      try assumption; destruct t; cbn; rewrite ?Z; reflexivity.
Qed.

Lemma reconcile_exact_and_guarded_witness :
  exists df' filled actions',
    @reconcile decimal_pandas
      (retail [None; Some 3%Q] [Some 0%Q; Some 2%Q] [Some 5%Q; None]) []
    = Ok (df', filled, actions')
    /\ float_cell df' "price_per_unit" 0 = Some None
    /\ float_cell df' "quantity" 0 = Some (Some 0%Q)
    /\ float_cell df' "total_spent" 0 = Some (Some 5%Q).
Proof.
  refine (proj1 (proj2 (proj2 (proj2 (@reconcile_exact_and_guarded
            decimal_pandas))))
            (retail [None; Some 3%Q] [Some 0%Q; Some 2%Q] [Some 5%Q; None])
            [] _ _ _ 0 0%Q (Some 5%Q) _ _ _ _ _ _ _); reflexivity.
Defined.

(** ** Loops over the columns *)

Lemma lookup_app_notin col (done todo : list (string * Series)) :
  ~ In col (map fst done) -> lookup col (done ++ todo) = lookup col todo.
Proof.
  induction done as [|[n x] done IH]; simpl; [reflexivity|].
  intros H. destruct (String.eqb_spec n col) as [E|E].
  - exfalso. apply H. now left.
  - apply IH. intros F. apply H. now right.
Qed.

Lemma update_app_notin col v (done todo : list (string * Series)) :
  ~ In col (map fst done) ->
  update col v (done ++ todo) = done ++ update col v todo.
Proof.
  induction done as [|[n x] done IH]; simpl; [reflexivity|].
  intros H. destruct (String.eqb_spec n col) as [E|E].
  - exfalso. apply H. now left.
  - f_equal. apply IH. intros F. apply H. now right.
Qed.

Lemma for_columns_noop step cols st :
  (forall col, In col cols -> step st col = Ok st) ->
  for_columns step cols st = Ok st.
Proof.
  induction cols as [|c cols IH]; simpl; [reflexivity|]. intros H.
  rewrite H by now left. simpl. apply IH. intros; apply H. now right.
Qed.

Lemma for_columns_split
  (step : Table * list Action -> string -> Result (Table * list Action))
  (f : string -> Series -> Series) (g : string -> Series -> list Action)
  (Inv : Series -> Prop) :
  (forall df acts col s,
      get df col = Some s -> Inv s ->
      step (df, acts) col = Ok (set df col (f col s), acts ++ g col s)) ->
  forall todo done n acts,
    NoDup (map fst (done ++ todo)) ->
    Forall (fun c => Inv (snd c)) todo ->
    for_columns step (map fst todo) (mkTable n (done ++ todo), acts)
    = Ok (mkTable n (done ++ map (fun c => (fst c, f (fst c) (snd c))) todo),
          acts ++ flat_map (fun c => g (fst c) (snd c)) todo).
Proof.
  intros Hstep. induction todo as [|[c s] todo IH]; intros done n acts ND HI.
  - simpl. now rewrite !app_nil_r.
  - simpl.
    assert (Nin : ~ In c (map fst done)).
    { rewrite map_app in ND. simpl in ND.
      apply NoDup_remove_2 in ND. intros F. apply ND.
      apply in_or_app. now left. }
    inversion HI as [|? ? Hs HI']; subst.
    rewrite (Hstep _ acts c s).
    + simpl. unfold set. simpl.
      rewrite update_app_notin by exact Nin. simpl. rewrite String.eqb_refl.
      replace (done ++ (c, f c s) :: todo)
        with ((done ++ [(c, f c s)]) ++ todo)
        by (rewrite <- app_assoc; reflexivity).
      rewrite IH.
      * rewrite <- !app_assoc. reflexivity.
      * rewrite <- app_assoc. simpl.
        rewrite map_app in *. simpl in *. exact ND.
      * exact HI'.
    + unfold get. simpl. rewrite lookup_app_notin by exact Nin.
      simpl. now rewrite String.eqb_refl.
    + exact Hs.
Qed.

Lemma for_columns_per_column
  (step : Table * list Action -> string -> Result (Table * list Action))
  (f : string -> Series -> Series) (g : string -> Series -> list Action)
  (Inv : Series -> Prop) (df : Table) (acts : list Action) :
  (forall df acts col s,
      get df col = Some s -> Inv s ->
      step (df, acts) col = Ok (set df col (f col s), acts ++ g col s)) ->
  NoDup (names df) ->
  Forall (fun c => Inv (snd c)) (columns df) ->
  for_columns step (names df) (df, acts)
  = Ok (per_column f df, acts ++ per_column_log g df).
Proof.
  intros Hstep ND HI. destruct df as [n cs]. unfold names in *. simpl in *.
  exact (for_columns_split step f g Inv Hstep cs [] n acts ND HI).
Qed.

Lemma names_per_column f df : names (per_column f df) = names df.
Proof.
  unfold names, per_column; simpl. rewrite map_map. reflexivity.
Qed.

Lemma per_column_compose f g df :
  per_column f (per_column g df)
  = per_column (fun n s => f n (g n s)) df.
Proof.
  unfold per_column; simpl. f_equal. rewrite map_map. reflexivity.
Qed.

Lemma per_column_ext f g df :
  (forall n s, In (n, s) (columns df) -> f n s = g n s) ->
  per_column f df = per_column g df.
Proof.
  intros H. unfold per_column. f_equal.
  apply map_ext_in. intros [n s] I. simpl. f_equal. now apply H.
Qed.



Lemma lookup_In col cs s : lookup col cs = Some s -> In (col, s) cs.
Proof.
  induction cs as [|[n x] cs IH]; simpl; [discriminate|].
  destruct (String.eqb_spec n col) as [E|E].
  - intros [= ->]. left. now subst.
  - intros H. right. now apply IH.
Qed.

Lemma In_lookup col cs s :
  NoDup (map fst cs) -> In (col, s) cs -> lookup col cs = Some s.
Proof.
  induction cs as [|[n x] cs IH]; simpl; [tauto|].
  intros ND [E|I].
  - injection E as -> ->. now rewrite String.eqb_refl.
  - inversion ND as [|? ? Nin ND']; subst.
    destruct (String.eqb_spec n col) as [E|E].
    + subst. exfalso. apply Nin. apply (in_map fst) in I. exact I.
    + now apply IH.
Qed.

(** Writing one column is the map that rewrites the column of that name. *)
Lemma set_as_per_column (h : Series -> Series) df col :
  NoDup (names df) ->
  match get df col with
  | Some s => set df col (h s)
  | None => df
  end
  = per_column (fun n x => if String.eqb n col then h x else x) df.
Proof.
  destruct df as [k cs]. unfold names, get, set, per_column; simpl.
  intros ND. induction cs as [|[n x] cs IH]; simpl; [reflexivity|].
  inversion ND as [|? ? Nin ND']; subst.
  destruct (String.eqb_spec n col) as [E|E].
  - subst. simpl. f_equal. f_equal.
    symmetry. rewrite <- (map_id cs) at 2. apply map_ext_in.
    intros [m y] I. simpl.
    destruct (String.eqb_spec m col) as [E|E]; [|reflexivity].
    subst. exfalso. apply Nin. apply (in_map fst) in I. exact I.
  - specialize (IH ND').
    destruct (lookup col cs) as [s|]; simpl in *.
    + injection IH as IH. rewrite IH. reflexivity.
    + injection IH as IH. rewrite <- IH. reflexivity.
Qed.

Lemma set_set df col a b : set (set df col a) col b = set df col b.
Proof.
  destruct df as [k cs]. unfold set; simpl. f_equal.
  induction cs as [|[n x] cs IH]; simpl; [reflexivity|].
  destruct (String.eqb n col) eqn:E; simpl; rewrite E; [reflexivity|].
  now rewrite IH.
Qed.

Lemma get_absent df col : ~ In col (names df) -> get df col = None.
Proof. intros H. now apply lookup_none_iff. Qed.

(** ** The cleaner on tables of text and boolean columns *)

Section PlainTables.
Context {P : Pandas}.

Lemma parse_bool_is_boolean s : exists l, _parse_bool s = SBoolean l.
Proof. destruct s; simpl; eauto. Qed.

Lemma bool_step df acts col s :
  get df col = Some s ->
  (if is_boolean s then Ok (_fill_missing_bool_mode df col acts)
   else Ok (df, acts))
  = Ok (set df col (bool_filled s), acts ++ bool_fill_log col s).
Proof.
  intros G. unfold bool_filled, bool_fill_log.
  destruct (is_boolean s).
  - unfold _fill_missing_bool_mode. rewrite G. cbv zeta.
    destruct (Nat.eqb (isna_sum (_parse_bool s)) 0).
    + now rewrite app_nil_r.
    + destruct (parse_bool_is_boolean s) as [l ->].
      fold (bool_fill_value l). now rewrite set_set.
  - now rewrite (set_same _ _ _ G), app_nil_r.
Qed.

Lemma unknown_step df acts col s :
  get df col = Some s ->
  _fill_missing_categorical_unknown df col acts
  = (set df col (unknown_filled s), acts ++ unknown_fill_log col s).
Proof.
  intros G. unfold _fill_missing_categorical_unknown, unknown_filled,
    unknown_fill_log. rewrite G.
  destruct (is_numeric_dtype s).
  - now rewrite (set_same _ _ _ G), app_nil_r.
  - destruct (Nat.eqb (isna_sum s) 0).
    + now rewrite (set_same _ _ _ G), app_nil_r.
    + reflexivity.
Qed.

Lemma plain_no_numeric_fill s :
  plain_col s = true ->
  (is_numeric_dtype s && negb (is_boolean s))%bool = false.
Proof. destruct s; simpl; intros; try reflexivity; discriminate. Qed.

Lemma plain_no_cap df acts col s :
  plain_col s = true -> get df col = Some s ->
  (if is_numeric_dtype s then Ok (_cap_outliers_iqr df col acts (15 # 10))
   else Ok (df, acts)) = Ok (df, acts).
Proof.
  intros Hp G. unfold _cap_outliers_iqr. rewrite G.
  destruct s; simpl in *; try reflexivity; discriminate.
Qed.

Lemma get_plain df col s :
  Forall (fun c => plain_col (snd c) = true) (columns df) ->
  get df col = Some s -> plain_col s = true.
Proof.
  intros F G. apply lookup_In in G.
  rewrite Forall_forall in F. exact (F _ G).
Qed.

Lemma in_names_get df col : In col (names df) -> exists s, get df col = Some s.
Proof.
  intros I. destruct (get df col) as [s|] eqn:G; [eauto|].
  apply lookup_none_iff in G. contradiction.
Qed.

End PlainTables.

Section CleanPlain.
Context {P : Pandas}.

Lemma try_parse_datetime_absent df col acts :
  get df col = None -> _try_parse_datetime df col acts = Ok (df, acts).
Proof. intros G. unfold _try_parse_datetime. now rewrite G. Qed.

Lemma to_numeric_absent df :
  get df "price_per_unit" = None -> get df "quantity" = None ->
  get df "total_spent" = None ->
  fold_left (fun df num_col => match get df num_col with
                               | Some s => set df num_col (_to_numeric s)
                               | None => df
                               end)
            ["price_per_unit"; "quantity"; "total_spent"] df = df.
Proof. intros G1 G2 G3. cbn [fold_left]. now rewrite G1, G2, G3. Qed.

Lemma reconcile_absent df acts :
  get df "price_per_unit" = None -> get df "quantity" = None ->
  get df "total_spent" = None ->
  _reconcile_price_qty_total df "price_per_unit" "quantity" "total_spent" acts
  = Ok (df, 0, acts).
Proof.
  intros G1 G2 G3. unfold _reconcile_price_qty_total.
  rewrite (to_numeric_absent df G1 G2 G3). now rewrite G1.
Qed.

Lemma plain_per_column f df :
  (forall n s, plain_col s = true -> plain_col (f n s) = true) ->
  Forall (fun c => plain_col (snd c) = true) (columns df) ->
  Forall (fun c => plain_col (snd c) = true) (columns (per_column f df)).
Proof.
  intros H F. unfold per_column; simpl. rewrite Forall_map.
  eapply Forall_impl; [|exact F]. intros [n x]; simpl. apply H.
Qed.

Lemma plain_clean_normalize s :
  plain_col s = true -> plain_col (clean_normalize_series s) = true.
Proof. destruct s; simpl; auto. Qed.

Lemma plain_parse_flag n s :
  plain_col s = true -> plain_col (parse_flag n s) = true.
Proof.
  unfold parse_flag. destruct (String.eqb n "discount_applied"); [|auto].
  intros _. destruct (parse_bool_is_boolean s) as [l ->]. reflexivity.
Qed.

Lemma plain_bool_filled s :
  plain_col s = true -> plain_col (bool_filled s) = true.
Proof.
  unfold bool_filled. destruct (is_boolean s); [|auto]. intros _.
  destruct (parse_bool_is_boolean s) as [l ->].
  destruct (Nat.eqb _ 0); reflexivity.
Qed.

Lemma plain_unknown_filled s :
  plain_col s = true -> plain_col (unknown_filled s) = true.
Proof.
  unfold unknown_filled. destruct (is_numeric_dtype s); [auto|].
  destruct (Nat.eqb _ 0); [auto|]. destruct s; simpl; auto.
Qed.

Lemma clean_dataset_plain df :
  plain_table df -> clean_dataset df = Ok (plain_cleaned df, plain_log df).
Proof.
  intros (ND & PL & AB). unfold clean_dataset.
  set (c0 := normalize_strings df).
  assert (N0 : names c0 = names df)
    by apply (names_per_column (fun _ => clean_normalize_series)).
  assert (P0 : Forall (fun c => plain_col (snd c) = true) (columns c0)).
  { apply (plain_per_column (fun _ => clean_normalize_series)); [|exact PL].
    intros _ s. apply plain_clean_normalize. }
  assert (A0 : forall n, In n ["transaction_date"; "price_per_unit";
                               "quantity"; "total_spent"] ->
                         get c0 n = None).
  { intros n I. apply get_absent. rewrite N0. now apply AB. }
  rewrite try_parse_datetime_absent by (apply A0; simpl; auto).
  cbn [bind].
  pose proof (set_as_per_column _parse_bool c0 "discount_applied") as S1.
  rewrite N0 in S1. specialize (S1 ND).
  set (c1 := flagged df).
  assert (E1 : (match get c0 "discount_applied" with
                | Some s => (set c0 "discount_applied" (_parse_bool s),
                             [NormalizeStrings]
                             ++ [TryParseBool "discount_applied"])
                | None => (c0, [NormalizeStrings])
                end) = (c1, [NormalizeStrings] ++ parse_note c0)).
  { unfold parse_note.
    change c1
      with (per_column (fun n x => if String.eqb n "discount_applied"
                                   then _parse_bool x else x) c0).
    rewrite <- S1. destruct (get c0 "discount_applied"); reflexivity. }
  rewrite E1. clear E1 S1.
  assert (N1 : names c1 = names df).
  { unfold c1, flagged. now rewrite names_per_column. }
  assert (P1 : Forall (fun c => plain_col (snd c) = true) (columns c1)).
  { apply plain_per_column; [|exact P0]. apply plain_parse_flag. }
  assert (A1 : forall n, In n ["transaction_date"; "price_per_unit";
                               "quantity"; "total_spent"] ->
                         get c1 n = None).
  { intros n I. apply get_absent. rewrite N1. now apply AB. }
  rewrite to_numeric_absent by (apply A1; simpl; auto).
  rewrite reconcile_absent by (apply A1; simpl; auto).
  cbn [bind].
  rewrite for_columns_noop.
  2:{ intros col I. destruct (in_names_get _ _ I) as [s G]. rewrite G.
      now rewrite (plain_no_numeric_fill s (get_plain _ _ _ P1 G)). }
  cbn [bind].
  rewrite (for_columns_per_column _ (fun _ => bool_filled) bool_fill_log
             (fun _ => True)); [| |rewrite N1; exact ND|].
  2:{ intros df' acts col s G _. rewrite G. now apply bool_step. }
  2:{ rewrite Forall_forall. auto. }
  cbn [bind].
  set (c2 := per_column (fun _ => bool_filled) c1).
  assert (N2 : names c1 = names c2)
    by (unfold c2; now rewrite names_per_column).
  rewrite N2.
  rewrite (for_columns_per_column _ (fun _ => unknown_filled)
             unknown_fill_log (fun _ => True));
    [| |rewrite <- N2, N1; exact ND|].
  2:{ intros df' acts col s G _. f_equal. now apply unknown_step. }
  2:{ rewrite Forall_forall. auto. }
  cbn [bind].
  set (c3 := per_column (fun _ => unknown_filled) c2).
  assert (P3 : Forall (fun c => plain_col (snd c) = true) (columns c3)).
  { apply plain_per_column; [intros _; apply plain_unknown_filled|].
    apply plain_per_column; [intros _; apply plain_bool_filled|exact P1]. }
  assert (N3 : names c2 = names c3)
    by (unfold c3; now rewrite names_per_column).
  rewrite N3.
  rewrite for_columns_noop; [reflexivity|].
  intros col I. destruct (in_names_get _ _ I) as [s G]. rewrite G.
  now apply plain_no_cap; [apply (get_plain _ _ _ P3 G)|].
Qed.

End CleanPlain.

(** ** Columns that the cleaner has settled *)

Lemma count_none_fillna {A} (v : A) (l : list (option A)) :
  count_none (fillna v l) = 0.
Proof.
  unfold count_none, fillna. induction l as [|[x|] l IH]; simpl; auto.
Qed.

Lemma fillna_complete {A} (v : A) (l : list (option A)) :
  count_none l = 0 -> fillna v l = l.
Proof.
  unfold count_none, fillna. induction l as [|[x|] l IH]; simpl;
    try discriminate; intros H; [reflexivity|]. now rewrite IH.
Qed.

Lemma count_none_map_Some {A} (l : list A) : count_none (map Some l) = 0.
Proof. unfold count_none. induction l; simpl; auto. Qed.

Lemma clean_normalize_fillna_unknown (l : list (option string)) :
  map clean_normalize_cell (fillna "Unknown" (map clean_normalize_cell l))
  = fillna "Unknown" (map clean_normalize_cell l).
Proof.
  unfold fillna. rewrite !map_map. apply map_ext. intros c.
  destruct (clean_normalize_cell c) as [x|] eqn:E; [|reflexivity].
  rewrite <- E. apply clean_normalize_cell_idem.
Qed.

Section Settled.
Context {P : Pandas}.

Lemma parse_bool_cell_of_bool (c : option bool) :
  parse_bool_cell (option_map str_of_bool c) = c.
Proof. destruct c as [[|]|]; reflexivity. Qed.

Lemma parse_bool_boolean (l : list (option bool)) :
  _parse_bool (SBoolean l) = SBoolean l.
Proof.
  simpl. f_equal. rewrite map_map. rewrite <- (map_id l) at 2.
  apply map_ext. apply parse_bool_cell_of_bool.
Qed.

Lemma parse_bool_bool (l : list bool) :
  _parse_bool (SBool l) = SBoolean (map Some l).
Proof. reflexivity. Qed.

Lemma bool_filled_boolean (l : list (option bool)) :
  exists l', bool_filled (SBoolean l) = SBoolean l' /\ count_none l' = 0.
Proof.
  unfold bool_filled. cbn [is_boolean is_bool_dtype].
  rewrite parse_bool_boolean. cbn [isna_sum].
  destruct (Nat.eqb_spec (count_none l) 0) as [E|E].
  - eauto.
  - eexists; split; [reflexivity|]. apply count_none_fillna.
Qed.

Lemma final_column_settled (name : string) (s : Series) :
  plain_col s = true -> settled name (final_column name s).
Proof.
  intros Hp. unfold final_column, parse_flag.
  destruct s as [l|l|l|l|l]; try discriminate Hp; cbn [clean_normalize_series].
  - destruct (String.eqb_spec name "discount_applied") as [E|E].
    + cbn [_parse_bool astype_string].
      destruct (bool_filled_boolean
                  (map parse_bool_cell (map clean_normalize_cell l)))
        as (l' & -> & C).
      exact C.
    + unfold bool_filled, unknown_filled.
      cbn [is_boolean is_bool_dtype is_numeric_dtype isna_sum].
      destruct (Nat.eqb_spec (count_none (map clean_normalize_cell l)) 0)
        as [C|C]; cbn [settled fillna_unknown].
      * repeat split; [exact E|exact C|].
        rewrite map_map. apply map_ext. apply clean_normalize_cell_idem.
      * repeat split; [exact E|apply count_none_fillna|].
        apply clean_normalize_fillna_unknown.
  - assert (B : bool_filled (if String.eqb name "discount_applied"
                             then _parse_bool (SBool l) else SBool l)
                = SBoolean (map Some l)).
    { destruct (String.eqb name "discount_applied");
        rewrite ?parse_bool_bool; unfold bool_filled;
        cbn [is_boolean is_bool_dtype];
        rewrite ?parse_bool_bool, ?parse_bool_boolean; cbn [isna_sum];
        now rewrite count_none_map_Some. }
    rewrite B. cbn. apply count_none_map_Some.
  - assert (B : (if String.eqb name "discount_applied"
                 then _parse_bool (SBoolean l) else SBoolean l)
                = SBoolean l).
    { destruct (String.eqb name "discount_applied");
        [apply parse_bool_boolean|reflexivity]. }
    rewrite B. destruct (bool_filled_boolean l) as (l' & -> & C). exact C.
Qed.


Lemma plain_cleaned_final df :
  plain_cleaned df = per_column final_column df.
Proof.
  unfold plain_cleaned, flagged, normalize_strings.
  change (mkTable (nrows df)
            (map (fun c => (fst c, clean_normalize_series (snd c)))
                 (columns df)))
    with (per_column (fun _ => clean_normalize_series) df).
  now rewrite !per_column_compose.
Qed.

End Settled.

(** ** Running the cleaner on its own output *)




(** Reconciliation and numeric imputation may come back as well: the first
    run fills the total of the second row with the median, which lets the
    second run derive a price, the median of which fills the first row. *)
Lemma reconcile_and_fill_come_back :
  let df := mkTable 2 [("price_per_unit", SText [None; None]);
                       ("quantity", SText [Some "0"; Some "4"]);
                       ("total_spent", SText [Some "5"; None])] in
  match @clean_dataset decimal_pandas df, @clean_twice decimal_pandas df with
  | Ok (_, log1), Ok (_, log2) =>
      log1 = [NormalizeStrings; FillMissingNumeric "total_spent" "median" 1 0]
      /\ log2 = [NormalizeStrings; Reconcile 1;
                 FillMissingNumeric "price_per_unit" "median" 1 0]
  | _, _ => False
  end.
Proof. vm_compute. repeat split. Qed.


Lemma plain_cleaned_settled {P : Pandas} df n s :
  plain_table df -> In (n, s) (columns (plain_cleaned df)) -> settled n s.
Proof.
  intros (ND & PL & AB). rewrite plain_cleaned_final.
  unfold per_column; simpl. rewrite in_map_iff.
  intros ([n0 s0] & E & I). simpl in E. injection E as <- <-.
  apply final_column_settled. rewrite Forall_forall in PL. exact (PL _ I).
Qed.



(** ** Boolean parsing of the flag column *)

Section ParseBool.
Context {P : Pandas}.

Lemma parse_bool_cell_unrecognised (txt : string) :
  mem (lower (strip txt)) BOOL_TRUE = false ->
  mem (lower (strip txt)) BOOL_FALSE = false ->
  parse_bool_cell (Some txt) = None.
Proof.
  intros HT HF. unfold parse_bool_cell, option_map_str, replace_na.
  destruct (mem (lower (strip txt)) [""; "nan"; "none"]); [reflexivity|].
  unfold isin. now rewrite HT, HF.
Qed.

Lemma parse_bool_unrecognised (series : Series) (i : nat) (txt : string) :
  nth_error (astype_string series) i = Some (Some txt) ->
  mem (lower (strip txt)) BOOL_TRUE = false ->
  mem (lower (strip txt)) BOOL_FALSE = false ->
  exists l, _parse_bool series = SBoolean l /\ nth_error l i = Some None.
Proof.
  intros Hn HT HF.
  assert (C : nth_error (map parse_bool_cell (astype_string series)) i
              = Some None).
  { rewrite nth_error_map, Hn. simpl. f_equal.
    now apply parse_bool_cell_unrecognised. }
  destruct series as [l|l|l|l|l]; try (eexists; split; [reflexivity|exact C]).
  exfalso. simpl in Hn. rewrite nth_error_map in Hn.
  destruct (nth_error l i) as [[|]|]; try discriminate;
    injection Hn as <-; discriminate.
Qed.

Lemma get_per_column f df col :
  get (per_column f df) col = option_map (f col) (get df col).
Proof.
  unfold get, per_column; simpl.
  induction (columns df) as [|[n x] cs IH]; simpl; [reflexivity|].
  destruct (String.eqb_spec n col) as [E|E]; [now subst|exact IH].
Qed.

Lemma count_none_pos {A} (l : list (option A)) (i : nat) :
  nth_error l i = Some None -> 0 < count_none l.
Proof.
  unfold count_none. revert i.
  induction l as [|[x|] l IH]; intros [|i]; simpl; try discriminate;
    try lia; intros H; eauto.
Qed.

Lemma per_column_log_In g df col s a :
  In (col, s) (columns df) -> In a (g col s) -> In a (per_column_log g df).
Proof.
  intros I Ia. unfold per_column_log. apply in_flat_map.
  exists (col, s). auto.
Qed.

(** C10. Boolean parsing makes a missing cell of every cell whose trimmed,
    lower-cased text is in neither of the two fixed sets.  In
    [clean_dataset], on a table of text and boolean columns, such a cell of
    the text column discount_applied, present after the normalisation
    stage, is missing after the parse, and the boolean imputation then
    fills it with the mode of the parsed column and logs the fill. *)
Theorem parse_bool_drops_unrecognised_cells :
  (forall series i txt,
      nth_error (astype_string series) i = Some (Some txt) ->
      mem (lower (strip txt)) BOOL_TRUE = false ->
      mem (lower (strip txt)) BOOL_FALSE = false ->
      exists l, _parse_bool series = SBoolean l /\ nth_error l i = Some None)
  /\ (forall df l i txt,
        plain_table df ->
        get df "discount_applied" = Some (SText l) ->
        nth_error l i = Some (Some txt) ->
        mem (strip txt) CLEAN_MARKERS = false ->
        mem (lower (strip txt)) BOOL_TRUE = false ->
        mem (lower (strip txt)) BOOL_FALSE = false ->
        let v := bool_fill_value (parsed_flags l) in
        nth_error (map clean_normalize_cell l) i = Some (Some (strip txt))
        /\ nth_error (parsed_flags l) i = Some None
        /\ 0 < count_none (parsed_flags l)
        /\ exists cleaned log,
             clean_dataset df = Ok (cleaned, log)
             /\ get cleaned "discount_applied"
                = Some (SBoolean (fillna v (parsed_flags l)))
             /\ nth_error (fillna v (parsed_flags l)) i = Some (Some v)
             /\ In (FillMissingBool "discount_applied" v
                      (count_none (parsed_flags l)) 0) log).
Proof.
  split; [exact parse_bool_unrecognised|].
  intros df l i txt Hp G Hn HM HT HF v.
  assert (N : nth_error (map clean_normalize_cell l) i
              = Some (Some (strip txt))).
  { rewrite nth_error_map, Hn. simpl.
    unfold clean_normalize_cell, option_map_str, replace_na. now rewrite HM. }
  assert (B : nth_error (parsed_flags l) i = Some None).
  { unfold parsed_flags. rewrite nth_error_map, N. simpl. f_equal.
    apply parse_bool_cell_unrecognised; now rewrite strip_idem. }
  pose proof (count_none_pos _ _ B) as C.
  repeat split; try assumption.
  exists (plain_cleaned df), (plain_log df).
  assert (F : bool_filled (SBoolean (parsed_flags l))
              = SBoolean (fillna v (parsed_flags l))).
  { unfold bool_filled. cbn [is_boolean is_bool_dtype].
    rewrite parse_bool_boolean. cbn [isna_sum].
    destruct (Nat.eqb_spec (count_none (parsed_flags l)) 0); [lia|reflexivity]. }
  assert (L : bool_fill_log "discount_applied" (SBoolean (parsed_flags l))
              = [FillMissingBool "discount_applied" v
                   (count_none (parsed_flags l)) 0]).
  { unfold bool_fill_log. cbn [is_boolean is_bool_dtype].
    rewrite parse_bool_boolean. cbn [isna_sum].
    destruct (Nat.eqb_spec (count_none (parsed_flags l)) 0); [lia|].
    now rewrite count_none_fillna. }
  split; [now apply clean_dataset_plain|].
  split; [|split].
  - rewrite plain_cleaned_final, get_per_column, G. simpl. f_equal.
    unfold final_column, parse_flag. cbn [String.eqb Ascii.eqb Bool.eqb andb].
    cbn [clean_normalize_series _parse_bool astype_string].
    fold (parsed_flags l). rewrite F. reflexivity.
  - unfold fillna. rewrite nth_error_map, B. reflexivity.
  - unfold plain_log. apply in_or_app. left. apply in_or_app. right.
    apply (per_column_log_In _ _ "discount_applied"
             (SBoolean (parsed_flags l))); [|rewrite L; now left].
    apply lookup_In. fold (get (flagged df) "discount_applied").
    unfold flagged. rewrite get_per_column.
    change (get (normalize_strings df) "discount_applied")
      with (get (per_column (fun _ => clean_normalize_series) df)
                "discount_applied").
    rewrite get_per_column, G. reflexivity.
Qed.

End ParseBool.

Lemma parse_bool_drops_unrecognised_cells_witness :
  let df := mkTable 3 [("discount_applied",
                        SText [Some " Yes "; Some "maybe"; Some "yes"])] in
  exists cleaned log,
    @clean_dataset decimal_pandas df = Ok (cleaned, log)
    /\ get cleaned "discount_applied"
       = Some (SBoolean [Some true; Some true; Some true])
    /\ In (FillMissingBool "discount_applied" true 1 0) log.
Proof.
  destruct (proj2 (@parse_bool_drops_unrecognised_cells decimal_pandas)
              (mkTable 3 [("discount_applied",
                           SText [Some " Yes "; Some "maybe"; Some "yes"])])
              [Some " Yes "; Some "maybe"; Some "yes"] 1 "maybe")
    as (_ & _ & _ & cleaned & log & E & G & _ & I); try reflexivity.
  - repeat split.
    + repeat constructor; simpl; intuition discriminate.
    + repeat constructor.
    + simpl. intuition (subst; discriminate).
  - exists cleaned, log. repeat split; assumption.
Defined.

(* ================================================================== *)
(** * Part III. Further properties of the code *)
(* ================================================================== *)

(** ** The two normalisers *)

Lemma strip_fixed_after_strip s : strip (lower (strip s)) = lower (strip s).
Proof. now rewrite strip_lower, strip_idem. Qed.

(** X1. What [_normalize_missing_tokens] leaves in a text cell: a missing
    cell stays missing, and a text that is kept has no space at either end,
    is in lower case and is none of the markers.  The cleaner's stage keeps
    a trimmed text that is none of its own markers. *)
Theorem normalized_cell_normal_form (c : option string) (t : string) :
  (normalize_cell c = Some t ->
   c <> None /\ strip t = t /\ lower t = t
   /\ mem t MISSING_MARKERS = false)
  /\ (clean_normalize_cell c = Some t ->
      c <> None /\ strip t = t /\ mem t CLEAN_MARKERS = false).
Proof.
  destruct c as [s|]; [|split; discriminate].
  unfold normalize_cell, clean_normalize_cell, option_map_str, replace_na.
  split.
  - destruct (mem (lower (strip s)) MISSING_MARKERS) eqn:E; [discriminate|].
    intros [= <-]. repeat split; try assumption; try discriminate.
    + apply strip_fixed_after_strip.
    + apply lower_idem.
  - destruct (mem (strip s) CLEAN_MARKERS) eqn:E; [discriminate|].
    intros [= <-]. repeat split; try assumption; try discriminate.
    apply strip_idem.
Qed.

Lemma normalized_cell_normal_form_witness :
  strip "ab c" = "ab c" /\ lower "ab c" = "ab c"
  /\ mem "ab c" MISSING_MARKERS = false.
Proof.
  destruct (proj1 (normalized_cell_normal_form (Some "  Ab C ") "ab c")
              eq_refl) as (_ & H).
  exact H.
Defined.

Lemma clean_marker_is_marker (x : string) :
  mem x CLEAN_MARKERS = true -> mem (lower x) MISSING_MARKERS = true.
Proof.
  unfold mem, CLEAN_MARKERS. cbn [existsb]. intros H.
  repeat (apply orb_prop in H; destruct H as [H|H]);
    try discriminate H; apply String.eqb_eq in H; subst x; reflexivity.
Qed.

Lemma normalize_after_clean_normalize (c : option string) :
  normalize_cell (clean_normalize_cell c) = normalize_cell c.
Proof.
  destruct c as [s|]; [|reflexivity].
  unfold normalize_cell, clean_normalize_cell, option_map_str, replace_na.
  destruct (mem (strip s) CLEAN_MARKERS) eqn:E.
  - now rewrite (clean_marker_is_marker _ E).
  - now rewrite strip_idem.
Qed.

(** X2. The profiler's normaliser absorbs the cleaner's: a cell that the
    normalisation stage of [clean_dataset] makes missing is missing for
    [_normalize_missing_tokens] too, and normalising the table that the
    stage returns gives what normalising the table itself gives. *)
Theorem normalize_absorbs_clean_normalize (df : Table) :
  (forall c, clean_normalize_cell c = None -> normalize_cell c = None)
  /\ _normalize_missing_tokens (normalize_strings df)
     = _normalize_missing_tokens df.
Proof.
  split.
  - intros c H. rewrite <- normalize_after_clean_normalize. now rewrite H.
  - unfold _normalize_missing_tokens, normalize_strings; simpl. f_equal.
    rewrite map_map. apply map_ext. intros [n s]; simpl. f_equal.
    destruct s; simpl; try reflexivity. f_equal. rewrite map_map.
    apply map_ext. apply normalize_after_clean_normalize.
Qed.

Lemma normalize_absorbs_clean_normalize_witness :
  normalize_cell (Some " N/A ") = None.
Proof.
  apply (proj1 (normalize_absorbs_clean_normalize (mkTable 0 []))).
  reflexivity.
Defined.

(** ** Boolean parsing *)

Lemma len_parse_bool {P : Pandas} (s : Series) : len (_parse_bool s) = len s.
Proof. destruct s; simpl; now rewrite ?length_map. Qed.

(** X3. [_parse_bool] is idempotent and keeps the length of the column:
    the text that [astype("string")] makes of a parsed boolean parses back
    to that boolean, and a missing cell stays missing. *)
Theorem parse_bool_idempotent {P : Pandas} (s : Series) :
  _parse_bool (_parse_bool s) = _parse_bool s
  /\ len (_parse_bool s) = len s.
Proof.
  split; [|apply len_parse_bool].
  destruct (parse_bool_is_boolean s) as [l ->]. apply parse_bool_boolean.
Qed.

Lemma bool_true_not_false (x : string) :
  mem x BOOL_TRUE = true ->
  mem x [""; "nan"; "none"] = false /\ mem x BOOL_FALSE = false.
Proof.
  unfold mem, BOOL_TRUE. cbn [existsb]. intros H.
  repeat (apply orb_prop in H; destruct H as [H|H]);
    try discriminate H; apply String.eqb_eq in H; subst x; split; reflexivity.
Qed.

Lemma bool_false_not_na (x : string) :
  mem x BOOL_FALSE = true -> mem x [""; "nan"; "none"] = false.
Proof.
  unfold mem, BOOL_FALSE. cbn [existsb]. intros H.
  repeat (apply orb_prop in H; destruct H as [H|H]);
    try discriminate H; apply String.eqb_eq in H; subst x; reflexivity.
Qed.

Lemma parse_bool_cell_cases (txt : string) :
  parse_bool_cell (Some txt)
  = if mem (lower (strip txt)) BOOL_FALSE then Some false
    else if mem (lower (strip txt)) BOOL_TRUE then Some true
    else None.
Proof.
  unfold parse_bool_cell, option_map_str, replace_na.
  destruct (mem (lower (strip txt)) BOOL_FALSE) eqn:F.
  - rewrite (bool_false_not_na _ F). unfold isin. rewrite F.
    destruct (mem (lower (strip txt)) BOOL_TRUE); reflexivity.
  - destruct (mem (lower (strip txt)) BOOL_TRUE) eqn:T.
    + destruct (bool_true_not_false _ T) as [N _]. rewrite N.
      unfold isin. now rewrite T, F.
    + destruct (mem (lower (strip txt)) [""; "nan"; "none"]); [reflexivity|].
      unfold isin. now rewrite T, F.
Qed.

(** X4. In a text column, [_parse_bool] reads a cell as [True] exactly when
    its trimmed, lower-cased text is one of true, t, yes, y, 1, and as
    [False] exactly when it is one of false, f, no, n, 0; a missing cell
    stays missing. *)
Theorem parse_bool_text_column {P : Pandas} (l : list (option string))
  (i : nat) :
  exists out,
    _parse_bool (SText l) = SBoolean out
    /\ (forall txt, nth_error l i = Some (Some txt) ->
          (nth_error out i = Some (Some true)
           <-> mem (lower (strip txt)) BOOL_TRUE = true)
          /\ (nth_error out i = Some (Some false)
              <-> mem (lower (strip txt)) BOOL_FALSE = true))
    /\ (nth_error l i = Some None -> nth_error out i = Some None).
Proof.
  eexists. split; [reflexivity|]. cbn [astype_string]. split.
  - intros txt H. rewrite nth_error_map, H. cbn [option_map].
    rewrite parse_bool_cell_cases.
    destruct (mem (lower (strip txt)) BOOL_FALSE) eqn:F.
    + split; split; try discriminate; try reflexivity.
      intros T. destruct (bool_true_not_false _ T) as [_ F']. congruence.
    + destruct (mem (lower (strip txt)) BOOL_TRUE) eqn:T;
        split; split; try discriminate; reflexivity.
  - intros H. now rewrite nth_error_map, H.
Qed.

Lemma parse_bool_text_column_witness :
  exists out,
    @_parse_bool decimal_pandas (SText [Some " YES "; Some "0"; None])
    = SBoolean out
    /\ nth_error out 0 = Some (Some true).
Proof.
  destruct (@parse_bool_text_column decimal_pandas
              [Some " YES "; Some "0"; None] 0) as (out & E & H & _).
  exists out. split; [exact E|].
  apply (proj1 (H " YES " eq_refl)). reflexivity.
Defined.

(** ** Numeric coercion and type inference *)

Lemma count_none_le {A} (l : list (option A)) : count_none l <= List.length l.
Proof. unfold count_none. apply filter_length_le. Qed.

Lemma count_none_repeat {A} (n : nat) :
  count_none (repeat (@None A) n) = n.
Proof. unfold count_none. induction n; simpl; auto. Qed.

Lemma count_none_map_le {A B} (f : option A -> option B) (l : list (option A)) :
  f None = None -> count_none l <= count_none (map f l).
Proof.
  intros H. unfold count_none.
  induction l as [|[x|] l IH]; simpl; [lia| |].
  - destruct (f (Some x)); simpl; lia.
  - rewrite H. simpl. lia.
Qed.

Lemma isna_sum_le_len (s : Series) : isna_sum s <= len s.
Proof. destruct s; simpl; try apply count_none_le. lia. Qed.

(** X5. Numeric coercion keeps the shape and never invents a value:
    [clean_numeric_series] returns a numeric column of the same length with
    at least as many missing cells, a column that is already numeric comes
    back as it is, and so does any column coerced a second time. *)
Theorem clean_numeric_series_shape {P : Pandas} (s : Series) :
  is_numeric_dtype (clean_numeric_series s) = true
  /\ len (clean_numeric_series s) = len s
  /\ isna_sum s <= isna_sum (clean_numeric_series s)
  /\ (is_numeric_dtype s = true -> clean_numeric_series s = s)
  /\ clean_numeric_series (clean_numeric_series s) = clean_numeric_series s.
Proof.
  destruct s as [l|l|l|l|l]; cbn; repeat split; try reflexivity; try lia;
    try discriminate;
    try apply length_map; try apply repeat_length;
    try (apply count_none_map_le; reflexivity);
    try (change (count_none l
                 <= count_none (repeat (@None Q) (List.length l)));
         rewrite count_none_repeat; apply count_none_le).
Qed.

Lemma clean_numeric_series_shape_witness :
  @clean_numeric_series decimal_pandas (SNum [Some 1%Q; None])
  = SNum [Some 1%Q; None].
Proof.
  exact (proj1 (proj2 (proj2 (proj2
           (@clean_numeric_series_shape decimal_pandas
              (SNum [Some 1%Q; None]))))) eq_refl).
Defined.

Lemma Qlt_bool_ratio (a : Z) (b : positive) (k n : nat) :
  0 < n ->
  Qlt_bool (a # b) (inject_Z (Z.of_nat k) / inject_Z (Z.of_nat n))
  = (a * Z.of_nat n <? Z.of_nat k * Zpos b)%Z.
Proof.
  intros Hn.
  destruct (Z.ltb_spec (a * Z.of_nat n) (Z.of_nat k * Zpos b)) as [L|L].
  - apply Qlt_bool_iff. now apply ratio_gt_iff.
  - destruct (Qlt_bool _ _) eqn:E; [|reflexivity].
    apply Qlt_bool_iff, ratio_gt_iff in E; [lia|exact Hn].
Qed.

(** The decision of [infer_column_type] on a text column, on the counts. *)
Lemma infer_text_column_counts {P : Pandas} (l : list (option string)) :
  infer_column_type (SText l)
  = let n := List.length l in
    let k := notna_sum (clean_numeric_series (SText l)) in
    let u := nunique (SText l) in
    if Nat.ltb (4 * n) (5 * k) then numeric
    else if Nat.eqb n 0 then categorical
    else if Nat.eqb u 2 then binary
    else if Nat.ltb (9 * n) (10 * u) then id_type
    else categorical.
Proof.
  cbv zeta. unfold infer_column_type.
  cbn [is_datetime64_any_dtype is_bool_dtype is_numeric_dtype len].
  pose proof (gt_notna_mean_iff (clean_numeric_series (SText l)) 8 10) as G.
  rewrite len_clean_numeric_series in G.
  assert (K : notna_sum (clean_numeric_series (SText l)) <= List.length l).
  { unfold notna_sum. rewrite len_clean_numeric_series. lia. }
  destruct (gt (notna_mean (clean_numeric_series (SText l))) (8 # 10)).
  - destruct (proj1 G eq_refl) as [_ G'].
    destruct (Nat.ltb_spec (4 * List.length l)
                (5 * notna_sum (clean_numeric_series (SText l))));
      [reflexivity|lia].
  - destruct (Nat.ltb_spec (4 * List.length l)
                (5 * notna_sum (clean_numeric_series (SText l)))) as [L|L].
    + assert (false = true); [|discriminate]. apply G. split; lia.
    + destruct (Nat.eqb_spec (List.length l) 0) as [E|E]; [reflexivity|].
      destruct (Nat.eqb (nunique (SText l)) 2); [reflexivity|].
      rewrite Qlt_bool_ratio by lia.
      destruct (Z.ltb_spec (9 * Z.of_nat (List.length l))
                  (Z.of_nat (nunique (SText l)) * 10)),
               (Nat.ltb_spec (9 * List.length l) (10 * nunique (SText l)));
        try reflexivity; lia.
Qed.

Lemma somes_nil_count_none {A} (l : list (option A)) :
  somes l = [] -> count_none l = List.length l.
Proof.
  unfold count_none. induction l as [|[x|] l IH]; simpl;
    try discriminate; auto.
Qed.

(** X6. Type inference on a text column: it is never typed datetime; a
    column without a non-missing cell (empty or all missing) is
    categorical; and, when at most 0.8 of the cells convert to numbers, it
    is binary exactly for two distinct values and id exactly when the
    distinct values are not two and are more than 0.9 of the row count. *)
Theorem infer_text_column_cases {P : Pandas} (l : list (option string)) :
  let s := SText l in
  let n := List.length l in
  let k := notna_sum (clean_numeric_series s) in
  infer_column_type s <> datetime
  /\ (somes l = [] -> infer_column_type s = categorical)
  /\ (5 * k <= 4 * n ->
      (infer_column_type s = binary <-> nunique s = 2)
      /\ (infer_column_type s = id_type
          <-> nunique s <> 2 /\ 9 * n < 10 * nunique s)).
Proof.
  cbv zeta. rewrite infer_text_column_counts. cbv zeta.
  set (n := List.length l).
  set (k := notna_sum (clean_numeric_series (SText l))).
  set (u := nunique (SText l)).
  assert (U : u <= n).
  { unfold u, n. cbn [nunique].
    assert (D : forall m : list string,
               List.length (dedup String.eqb m) <= List.length m).
    { induction m as [|x m IH]; simpl; [lia|].
      destruct (existsb (String.eqb x) m); simpl; lia. }
    assert (S : List.length (somes l) <= List.length l).
    { clear. induction l as [|[x|] l IH]; simpl; lia. }
    specialize (D (somes l)). lia. }
  split; [|split].
  - destruct (Nat.ltb (4 * n) (5 * k)), (Nat.eqb n 0), (Nat.eqb u 2),
             (Nat.ltb (9 * n) (10 * u)); discriminate.
  - intros E.
    assert (K0 : k = 0).
    { unfold k, notna_sum. rewrite len_clean_numeric_series.
      cbn [clean_numeric_series is_numeric_dtype is_datetime64_any_dtype
           is_bool_dtype orb isna_sum].
      pose proof (count_none_map_le coerce_cell l eq_refl) as M.
      rewrite (somes_nil_count_none _ E) in M.
      pose proof (count_none_le (map coerce_cell l)) as M'.
      rewrite length_map in M'. lia. }
    assert (U0 : u = 0) by (unfold u; cbn [nunique]; now rewrite E).
    rewrite K0, U0.
    destruct (Nat.ltb_spec (4 * n) (5 * 0)); [lia|].
    destruct (Nat.eqb n 0); [reflexivity|]. cbn [Nat.eqb].
    destruct (Nat.ltb_spec (9 * n) (10 * 0)); [lia|reflexivity].
  - intros Hk.
    destruct (Nat.ltb_spec (4 * n) (5 * k)); [lia|].
    destruct (Nat.eqb_spec n 0) as [N0|N0].
    + split; split; try discriminate; intros; lia.
    + destruct (Nat.eqb_spec u 2) as [E|E].
      * split; split; try discriminate; try reflexivity; intros; lia.
      * destruct (Nat.ltb_spec (9 * n) (10 * u));
          split; split; try discriminate; try reflexivity; intros; lia.
Qed.

Lemma infer_text_column_cases_witness :
  @infer_column_type decimal_pandas (SText [None; None; None]) = categorical.
Proof.
  apply (@infer_text_column_cases decimal_pandas [None; None; None]).
  reflexivity.
Defined.

(** ** Sorting and quantiles *)



Lemma insert_sorted_length (x : Q) (l : list Q) :
  List.length (insert_sorted x l) = S (List.length l).
Proof.
  induction l as [|z l IH]; simpl; [reflexivity|].
  destruct (Qle_bool x z); simpl; [reflexivity|now rewrite IH].
Qed.

Lemma sort_length (l : list Q) : List.length (sort l) = List.length l.
Proof.
  induction l as [|x l IH]; simpl; [reflexivity|].
  now rewrite insert_sorted_length, IH.
Qed.









(** ** Outlier detection and capping *)

Lemma length_somes_le {A} (l : list (option A)) :
  List.length (somes l) <= List.length l.
Proof. induction l as [|[x|] l IH]; simpl; lia. Qed.

Lemma length_dropna_values (s : Series) :
  List.length (dropna_values s) <= len s.
Proof.
  destruct s; simpl; rewrite ?length_map; try apply length_somes_le; lia.
Qed.

(** X7. [detect_outliers] counts at most the non-missing values of the
    column, and counts nothing in a column that is not numeric or that has
    fewer than three non-missing values. *)
Theorem detect_outliers_bounds (s : Series) :
  detect_outliers s <= List.length (dropna_values s)
  /\ List.length (dropna_values s) <= len s
  /\ (List.length (dropna_values s) < 3 -> detect_outliers s = 0)
  /\ (is_numeric_dtype s = false -> detect_outliers s = 0).
Proof.
  split; [|split; [apply length_dropna_values|split]].
  - unfold detect_outliers.
    destruct (negb (is_numeric_dtype s)); [lia|].
    destruct (Nat.ltb _ 3); [lia|].
    destruct (quantile _ _); [|lia]. destruct (quantile _ _); [|lia].
    destruct (Qeq_bool _ 0); [lia|]. apply filter_length_le.
  - intros H. unfold detect_outliers.
    destruct (negb (is_numeric_dtype s)); [reflexivity|].
    apply Nat.ltb_lt in H. now rewrite H.
  - intros H. unfold detect_outliers. now rewrite H.
Qed.

Lemma detect_outliers_bounds_witness :
  detect_outliers (SNum [Some 1%Q; None; Some 900%Q]) = 0.
Proof.
  apply (proj1 (proj2 (proj2
           (detect_outliers_bounds (SNum [Some 1%Q; None; Some 900%Q]))))).
  simpl. lia.
Defined.









(** ** Imputation *)

Lemma sort_nonempty (l : list Q) : l <> [] -> sort l <> [].
Proof.
  intros H E. apply (f_equal (@List.length Q)) in E.
  rewrite sort_length in E. destruct l; [congruence|discriminate].
Qed.

Lemma median_some (l : list Q) : l <> [] -> exists v, median l = Some v.
Proof.
  intros H. unfold median. pose proof (sort_nonempty l H) as S.
  destruct (sort l) as [|x xs]; [congruence|].
  destruct (Nat.even _); eauto.
Qed.

Lemma mean_some (l : list Q) : l <> [] -> exists v, mean l = Some v.
Proof. destruct l; [congruence|]. intros _. unfold mean. eauto. Qed.

Lemma mode_some (l : list Q) : l <> [] -> exists v, mode l = Some v.
Proof.
  intros H. unfold mode. pose proof (sort_nonempty l H) as S.
  destruct (sort l) as [|x xs]; [congruence|]. cbn [fold_left].
  clear S. generalize x.
  induction xs as [|y xs IH]; intros b; cbn [fold_left].
  - eauto.
  - destruct (Nat.ltb _ _); apply IH.
Qed.

Lemma strategy_value_some (strategy : string) (l : list Q) :
  In strategy ["median"; "mean"; "mode"] ->
  (l <> [] -> exists v, strategy_value strategy l = Ok (Some v))
  /\ (l = [] -> strategy_value strategy l = Ok None).
Proof.
  intros [<-|[<-|[<-|[]]]]; unfold strategy_value; cbn [String.eqb];
    cbn; (split; [intros H|intros ->; reflexivity]).
  - destruct (median_some l H) as [v ->]. eauto.
  - destruct (mean_some l H) as [v ->]. eauto.
  - destruct (mode_some l H) as [v ->]. eauto.
Qed.

Lemma count_none_zero_somes {A} (l : list (option A)) :
  l <> [] -> count_none l = 0 -> somes l <> [].
Proof.
  unfold count_none. destruct l as [|[x|] l]; simpl; congruence.
Qed.

Lemma nth_error_fillna {A} (v : A) (l : list (option A)) (i : nat) :
  nth_error (fillna v l) i
  = option_map (fun c => match c with None => Some v | Some _ => c end)
               (nth_error l i).
Proof. unfold fillna. apply nth_error_map. Qed.

(** X10. Numeric imputation of a float column with one of the three known
    strategies never raises.  Without a missing cell, or without any value
    to compute the statistic from, the table and the log are unchanged;
    otherwise every missing cell receives the one value of the strategy,
    the present cells are kept, no missing cell is left, and the log gains
    one entry with the counts before and after (after being 0). *)
Theorem fill_missing_numeric_float_column {P : Pandas} (df : Table)
  (col strategy : string) (acts : list Action) (l : list (option Q)) :
  get df col = Some (SNum l) ->
  In strategy ["median"; "mean"; "mode"] ->
  (count_none l = 0 \/ somes l = [] ->
   _fill_missing_numeric df col strategy acts = Ok (df, acts))
  /\ (0 < count_none l -> somes l <> [] ->
      exists v,
        strategy_value strategy (somes l) = Ok (Some v)
        /\ _fill_missing_numeric df col strategy acts
           = Ok (set df col (SNum (fillna v l)),
                 acts ++ [FillMissingNumeric col strategy (count_none l) 0])
        /\ count_none (fillna v l) = 0
        /\ (forall i x, nth_error l i = Some (Some x) ->
                        nth_error (fillna v l) i = Some (Some x))
        /\ (forall i, nth_error l i = Some None ->
                      nth_error (fillna v l) i = Some (Some v))).
Proof.
  intros G S. unfold _fill_missing_numeric. rewrite G.
  cbn [_to_numeric isna_sum dropna_values].
  rewrite (set_same _ _ _ G).
  destruct (strategy_value_some strategy (somes l) S) as [VS VN].
  split.
  - intros [C|E].
    + now rewrite C.
    + rewrite (VN E). destruct (Nat.eqb _ 0); reflexivity.
  - intros C N. destruct (VS N) as [v V]. exists v. rewrite V.
    destruct (Nat.eqb_spec (count_none l) 0) as [Z|_]; [lia|].
    cbn [bind fillna_numeric isna_sum]. rewrite count_none_fillna.
    split; [reflexivity|]. split; [reflexivity|].
    split; [reflexivity|]. split.
    + intros i x H. now rewrite nth_error_fillna, H.
    + intros i H. now rewrite nth_error_fillna, H.
Qed.

Lemma fill_missing_numeric_float_column_witness :
  exists v,
    @_fill_missing_numeric decimal_pandas
      (mkTable 3 [("x", SNum [Some 1%Q; None; Some 4%Q])]) "x" "median" []
    = Ok (mkTable 3 [("x", SNum [Some 1%Q; Some v; Some 4%Q])],
          [FillMissingNumeric "x" "median" 1 0]).
Proof.
  destruct (proj2 (@fill_missing_numeric_float_column decimal_pandas
              (mkTable 3 [("x", SNum [Some 1%Q; None; Some 4%Q])])
              "x" "median" [] [Some 1%Q; None; Some 4%Q] eq_refl
              ltac:(simpl; auto)))
    as (v & _ & E & _).
  - vm_compute. lia.
  - discriminate.
  - exists v. exact E.
Defined.

(** X11. Boolean imputation leaves a nullable boolean column of the same
    length without a missing cell, whatever the column was; it touches no
    other column, and it logs one entry, with 0 missing cells after, exactly
    when the parsed column had a missing cell. *)
Theorem fill_missing_bool_mode_complete {P : Pandas} (df : Table)
  (col : string) (acts : list Action) (s : Series) :
  get df col = Some s ->
  let r := _fill_missing_bool_mode df col acts in
  exists l,
    get (fst r) col = Some (SBoolean l)
    /\ count_none l = 0
    /\ List.length l = len s
    /\ (forall c, c <> col -> get (fst r) c = get df c)
    /\ (if Nat.eqb (isna_sum (_parse_bool s)) 0 then snd r = acts
        else exists v, snd r = acts ++ [FillMissingBool col v
                                          (isna_sum (_parse_bool s)) 0]).
Proof.
  intros G r. unfold r, _fill_missing_bool_mode. rewrite G. cbv zeta.
  pose proof (len_parse_bool s) as L.
  destruct (parse_bool_is_boolean s) as [b E]. rewrite E in *.
  cbn [isna_sum len] in *.
  destruct (Nat.eqb_spec (count_none b) 0) as [Z|Z]; cbn [fst snd].
  - exists b. repeat split; try assumption.
    + now apply get_set_same with (s := s).
    + intros c N. apply get_set_other. congruence.
  - exists (fillna (bool_fill_value b) b). fold (bool_fill_value b).
    rewrite count_none_fillna. repeat split.
    + rewrite set_set. now apply get_set_same with (s := s).
    + unfold fillna. now rewrite length_map.
    + intros c N. rewrite !get_set_other; congruence.
    + eauto.
Qed.

Lemma fill_missing_bool_mode_complete_witness :
  exists l,
    get (fst (@_fill_missing_bool_mode decimal_pandas
                (mkTable 3 [("f", SText [Some "yes"; Some "?"; Some "no"])])
                "f" [])) "f" = Some (SBoolean l)
    /\ count_none l = 0.
Proof.
  destruct (@fill_missing_bool_mode_complete decimal_pandas
              (mkTable 3 [("f", SText [Some "yes"; Some "?"; Some "no"])])
              "f" [] (SText [Some "yes"; Some "?"; Some "no"]) eq_refl)
    as (l & G & C & _).
  exists l. split; assumption.
Defined.

(** X12. Categorical imputation of a text column: every missing cell
    becomes the text Unknown, every other cell is kept, no missing cell is
    left, and one entry is logged exactly when a cell was missing; a
    numeric column (boolean included) is left as it is, without an entry. *)
Theorem fill_missing_categorical_text_column {P : Pandas} (df : Table)
  (col : string) (acts : list Action) :
  (forall l, get df col = Some (SText l) ->
     _fill_missing_categorical_unknown df col acts
     = (set df col (SText (fillna "Unknown" l)),
        if Nat.eqb (count_none l) 0 then acts
        else acts ++ [FillMissingCategorical col (count_none l) 0])
     /\ count_none (fillna "Unknown" l) = 0
     /\ (forall i x, nth_error l i = Some (Some x) ->
                     nth_error (fillna "Unknown" l) i = Some (Some x))
     /\ (forall i, nth_error l i = Some None ->
                   nth_error (fillna "Unknown" l) i = Some (Some "Unknown")))
  /\ (forall s, get df col = Some s -> is_numeric_dtype s = true ->
        _fill_missing_categorical_unknown df col acts = (df, acts)).
Proof.
  split.
  - intros l G. split; [|split; [apply count_none_fillna|split]].
    + unfold _fill_missing_categorical_unknown. rewrite G.
      cbn [is_numeric_dtype isna_sum fillna_unknown].
      destruct (Nat.eqb_spec (count_none l) 0) as [Z|Z].
      * rewrite (fillna_complete _ _ Z). now rewrite (set_same _ _ _ G).
      * now rewrite count_none_fillna.
    + intros i x H. now rewrite nth_error_fillna, H.
    + intros i H. now rewrite nth_error_fillna, H.
  - intros s G N. unfold _fill_missing_categorical_unknown.
    now rewrite G, N.
Qed.

Lemma fill_missing_categorical_text_column_witness :
  @_fill_missing_categorical_unknown decimal_pandas
    (mkTable 2 [("c", SText [Some "a"; None])]) "c" []
  = (mkTable 2 [("c", SText [Some "a"; Some "Unknown"])],
     [FillMissingCategorical "c" 1 0]).
Proof.
  exact (proj1 (proj1 (@fill_missing_categorical_text_column decimal_pandas
                  (mkTable 2 [("c", SText [Some "a"; None])]) "c" [])
                  [Some "a"; None] eq_refl)).
Defined.

(** X13. The date parse of a column that the table does not have does
    nothing and logs nothing.  On a text column it returns a datetime
    column of the same length in which every missing cell is still missing,
    and logs one entry whose count after is at least the count before. *)
Theorem try_parse_datetime_text_column {P : Pandas} (df : Table)
  (col : string) (acts : list Action) :
  (get df col = None -> _try_parse_datetime df col acts = Ok (df, acts))
  /\ (forall l, get df col = Some (SText l) ->
        exists out,
          _try_parse_datetime df col acts
          = Ok (set df col (STime out),
                acts ++ [TryParseDatetime col (count_none l) (count_none out)])
          /\ List.length out = List.length l
          /\ count_none l <= count_none out
          /\ (forall i, nth_error l i = Some None ->
                        nth_error out i = Some None)).
Proof.
  split; [apply try_parse_datetime_absent|].
  intros l G. unfold _try_parse_datetime. rewrite G.
  cbn [to_datetime bind isna_sum]. eexists. split; [reflexivity|].
  split; [apply length_map|]. split.
  - apply (count_none_map_le
             (fun c => match c with
                       | Some s => to_datetime_str s
                       | None => None
                       end)). reflexivity.
  - intros i H. now rewrite nth_error_map, H.
Qed.

Lemma try_parse_datetime_text_column_witness :
  @_try_parse_datetime decimal_pandas
    (mkTable 1 [("x", SText [Some "a"])]) "transaction_date" []
  = Ok (mkTable 1 [("x", SText [Some "a"])], []).
Proof.
  exact (proj1 (@try_parse_datetime_text_column decimal_pandas
                  (mkTable 1 [("x", SText [Some "a"])])
                  "transaction_date" []) eq_refl).
Defined.

(** ** Reconciliation, on the whole table *)

Lemma any_false_mask_sum (mask : list bool) :
  any mask = false -> mask_sum mask = 0.
Proof.
  unfold any, mask_sum. induction mask as [|[|] m IH]; simpl;
    try discriminate; auto.
Qed.

Lemma reconcile_float_columns_filled {P : Pandas} (df : Table)
  (price qty total : string) (actions : list Action)
  (ps qs ts : list (option Q)) :
  price <> qty -> price <> total -> qty <> total ->
  get df price = Some (SNum ps) ->
  get df qty = Some (SNum qs) ->
  get df total = Some (SNum ts) ->
  _reconcile_price_qty_total df price qty total actions
  = Ok (set (set (set df total (SNum (reconciled_total ps qs ts)))
                 price (SNum (reconciled_price ps qs ts)))
            qty (SNum (reconciled_qty ps qs ts)),
        reconciled_filled ps qs ts,
        if Nat.ltb 0 (reconciled_filled ps qs ts)
        then actions ++ [Reconcile (reconciled_filled ps qs ts)]
        else actions).
Proof.
  intros Npq Npt Nqt Gp Gq Gt.
  unfold _reconcile_price_qty_total. cbn [fold_left].
  rewrite Gp. cbn [_to_numeric]. rewrite (set_same _ _ _ Gp).
  rewrite Gq. cbn [_to_numeric]. rewrite (set_same _ _ _ Gq).
  rewrite Gt. cbn [_to_numeric]. rewrite (set_same _ _ _ Gt).
  rewrite Gp, Gq, Gt. cbn [as_floats].
  rewrite (pass_written df total ts) by exact Gt.
  cbv beta iota. cbn [as_floats]. fold (reconciled_total ps qs ts).
  set (df1 := set df total (SNum (reconciled_total ps qs ts))).
  assert (Gp1 : get df1 price = Some (SNum ps)).
  { unfold df1. rewrite get_set_other; [exact Gp|congruence]. }
  rewrite (pass_written df1 price ps) by exact Gp1.
  cbv beta iota. cbn [as_floats]. fold (reconciled_price ps qs ts).
  set (df2 := set df1 price (SNum (reconciled_price ps qs ts))).
  assert (Gq2 : get df2 qty = Some (SNum qs)).
  { unfold df2, df1. rewrite !get_set_other; [exact Gq|congruence|congruence]. }
  rewrite (last_pass_written df2 qty qs) by exact Gq2.
  cbv beta iota. fold (reconciled_qty ps qs ts).
  match goal with
  | |- context [Nat.ltb 0 ?f] =>
      assert (F : f = reconciled_filled ps qs ts)
  end.
  { unfold reconciled_filled. cbv zeta.
    repeat match goal with
           | |- context [if any ?m then _ else _] =>
               let A := fresh "A" in
               destruct (any m) eqn:A;
               [|rewrite (any_false_mask_sum m A)]
           end; lia. }
  rewrite F. destruct (Nat.ltb 0 (reconciled_filled ps qs ts)); reflexivity.
Qed.

Lemma mask_sum_cons (b : bool) (m : list bool) :
  mask_sum (b :: m) = Nat.b2n b + mask_sum m.
Proof. unfold mask_sum. destruct b; reflexivity. Qed.

Lemma count_none_cons {A} (c : option A) (l : list (option A)) :
  count_none (c :: l) = Nat.b2n (is_none c) + count_none l.
Proof. unfold count_none. destruct c; reflexivity. Qed.

Lemma list_sum_cons (a : nat) (l : list nat) :
  list_sum (a :: l) = a + list_sum l.
Proof. reflexivity. Qed.

Lemma reconciled_filled_rowwise (ps qs ts : list (option Q)) :
  List.length ps = List.length qs -> List.length qs = List.length ts ->
  reconciled_filled ps qs ts
  = list_sum (zip_with3 (fun p q t => row_fills (p, q, t)) ps qs ts).
Proof.
  intros L1 L2. unfold reconciled_filled. cbv zeta.
  destruct (reconciled_rowwise ps qs ts L1 L2) as (T & Pr & _).
  rewrite T, Pr. clear T Pr. revert qs ts L1 L2.
  induction ps as [|p ps IH]; intros [|q qs] [|t ts] L1 L2;
    try discriminate; [reflexivity|].
  cbn [zip_with3]. rewrite !mask_sum_cons, list_sum_cons.
  injection L1 as L1. injection L2 as L2.
  specialize (IH qs ts L1 L2). cbn [row_fills reconcile_row fst snd] in *.
  lia.
Qed.

Lemma row_balance (r : option Q * option Q * option Q) :
  row_missing r = row_fills r + row_missing (reconcile_row r).
Proof.
  destruct r as [[[p|] [q|]] [t|]]; cbn; try reflexivity;
    destruct (Qeq_bool _ 0); reflexivity.
Qed.

Lemma missing_balance (ps qs ts : list (option Q)) :
  List.length ps = List.length qs -> List.length qs = List.length ts ->
  count_none ps + count_none qs + count_none ts
  = reconciled_filled ps qs ts
    + (count_none (reconciled_price ps qs ts)
       + count_none (reconciled_qty ps qs ts)
       + count_none (reconciled_total ps qs ts)).
Proof.
  intros L1 L2. rewrite (reconciled_filled_rowwise ps qs ts L1 L2).
  destruct (reconciled_rowwise ps qs ts L1 L2) as (T & Pr & Qt).
  rewrite T, Pr, Qt. clear T Pr Qt. revert qs ts L1 L2.
  induction ps as [|p ps IH]; intros [|q qs] [|t ts] L1 L2;
    try discriminate; [reflexivity|].
  cbn [zip_with3]. rewrite !count_none_cons, list_sum_cons.
  injection L1 as L1. injection L2 as L2.
  specialize (IH qs ts L1 L2).
  pose proof (row_balance (p, q, t)) as B.
  destruct (reconcile_row (p, q, t)) as [[p' q'] t'] eqn:E.
  cbn [fst snd]. cbn [row_missing] in B. lia.
Qed.

(** X14. Reconciliation of three float columns of one length returns
    normally, writes only those three columns, and reports what it did:
    the count it returns is the number of missing cells of the three columns
    that are no longer missing, and the log gains the [reconcile] entry
    with that count exactly when the count is not 0. *)
Theorem reconcile_counts_filled_cells {P : Pandas} (df : Table)
  (acts : list Action) (ps qs ts : list (option Q)) :
  get df "price_per_unit" = Some (SNum ps) ->
  get df "quantity" = Some (SNum qs) ->
  get df "total_spent" = Some (SNum ts) ->
  List.length ps = List.length qs -> List.length qs = List.length ts ->
  exists df' filled ps' qs' ts',
    reconcile df acts
    = Ok (df', filled,
          if Nat.ltb 0 filled then acts ++ [Reconcile filled] else acts)
    /\ get df' "price_per_unit" = Some (SNum ps')
    /\ get df' "quantity" = Some (SNum qs')
    /\ get df' "total_spent" = Some (SNum ts')
    /\ (forall c, c <> "price_per_unit" -> c <> "quantity" ->
                  c <> "total_spent" -> get df' c = get df c)
    /\ names df' = names df
    /\ count_none ps + count_none qs + count_none ts
       = filled + (count_none ps' + count_none qs' + count_none ts').
Proof.
  intros Gp Gq Gt L1 L2.
  exists (set (set (set df "total_spent" (SNum (reconciled_total ps qs ts)))
                   "price_per_unit" (SNum (reconciled_price ps qs ts)))
              "quantity" (SNum (reconciled_qty ps qs ts))),
    (reconciled_filled ps qs ts),
    (reconciled_price ps qs ts), (reconciled_qty ps qs ts),
    (reconciled_total ps qs ts).
  split.
  { unfold reconcile. apply reconcile_float_columns_filled;
      try assumption; discriminate. }
  split; [|split; [|split; [|split; [|split]]]].
  - rewrite get_set_other by discriminate.
    apply get_set_same with (s := SNum ps).
    rewrite get_set_other by discriminate. exact Gp.
  - apply get_set_same with (s := SNum qs).
    rewrite !get_set_other by discriminate. exact Gq.
  - rewrite !get_set_other by discriminate.
    now apply get_set_same with (s := SNum ts).
  - intros c N1 N2 N3. rewrite !get_set_other; congruence.
  - now rewrite !names_set.
  - now apply missing_balance.
Qed.

Lemma reconcile_counts_filled_cells_witness :
  exists df' filled ps' qs' ts',
    @reconcile decimal_pandas
      (retail [None; Some 3%Q] [Some 2%Q; None] [Some 5%Q; None]) []
    = Ok (df', filled,
          if Nat.ltb 0 filled then [] ++ [Reconcile filled] else [])
    /\ get df' "price_per_unit" = Some (SNum ps')
    /\ get df' "quantity" = Some (SNum qs')
    /\ get df' "total_spent" = Some (SNum ts')
    /\ 1 + 1 + 1 = filled + (count_none ps' + count_none qs' + count_none ts').
Proof.
  destruct (@reconcile_counts_filled_cells decimal_pandas
              (retail [None; Some 3%Q] [Some 2%Q; None] [Some 5%Q; None]) []
              [None; Some 3%Q] [Some 2%Q; None] [Some 5%Q; None]
              eq_refl eq_refl eq_refl eq_refl eq_refl)
    as (df' & filled & ps' & qs' & ts' & E & G1 & G2 & G3 & _ & _ & B).
  exists df', filled, ps', qs', ts'. repeat split; assumption.
Defined.

Lemma zip_with3_fuse {A B C D E F G}
  (g : D -> E -> F -> G) (f1 : A -> B -> C -> D) (f2 : A -> B -> C -> E)
  (f3 : A -> B -> C -> F) (a : list A) (b : list B) (c : list C) :
  zip_with3 g (zip_with3 f1 a b c) (zip_with3 f2 a b c) (zip_with3 f3 a b c)
  = zip_with3 (fun x y z => g (f1 x y z) (f2 x y z) (f3 x y z)) a b c.
Proof.
  revert b c. induction a as [|x a IH]; intros [|y b] [|z c]; simpl;
    try reflexivity. now rewrite IH.
Qed.

Lemma zip_with3_ext {A B C D} (f g : A -> B -> C -> D)
  (a : list A) (b : list B) (c : list C) :
  (forall x y z, f x y z = g x y z) ->
  zip_with3 f a b c = zip_with3 g a b c.
Proof.
  intros H. revert b c. induction a as [|x a IH]; intros [|y b] [|z c];
    simpl; try reflexivity. now rewrite H, IH.
Qed.

Lemma reconcile_row_settled (r : option Q * option Q * option Q) :
  reconcile_row (reconcile_row r) = reconcile_row r
  /\ row_fills (reconcile_row r) = 0.
Proof.
  destruct r as [[[p|] [q|]] [t|]]; cbn; try (split; reflexivity);
    destruct (Qeq_bool _ 0) eqn:E; cbn; rewrite ?E; split; reflexivity.
Qed.

Lemma list_sum_zero {A B C} (f : A -> B -> C -> nat)
  (a : list A) (b : list B) (c : list C) :
  (forall x y z, f x y z = 0) -> list_sum (zip_with3 f a b c) = 0.
Proof.
  intros H. revert b c. induction a as [|x a IH]; intros [|y b] [|z c];
    simpl; try reflexivity. rewrite H. apply IH.
Qed.

Lemma reconciled_again (ps qs ts : list (option Q)) :
  List.length ps = List.length qs -> List.length qs = List.length ts ->
  let ps' := reconciled_price ps qs ts in
  let qs' := reconciled_qty ps qs ts in
  let ts' := reconciled_total ps qs ts in
  reconciled_total ps' qs' ts' = ts'
  /\ reconciled_price ps' qs' ts' = ps'
  /\ reconciled_qty ps' qs' ts' = qs'
  /\ reconciled_filled ps' qs' ts' = 0.
Proof.
  intros L1 L2. cbv zeta.
  destruct (reconciled_rowwise ps qs ts L1 L2) as (T & Pr & Qt).
  rewrite T, Pr, Qt.
  pose (ps' := zip_with3 (fun p q t => fst (fst (reconcile_row (p, q, t))))
                         ps qs ts).
  pose (qs' := zip_with3 (fun p q t => snd (fst (reconcile_row (p, q, t))))
                         ps qs ts).
  pose (ts' := zip_with3 (fun p q t => snd (reconcile_row (p, q, t)))
                         ps qs ts).
  assert (L1' : List.length ps' = List.length qs')
    by (unfold ps', qs'; lengths).
  assert (L2' : List.length qs' = List.length ts')
    by (unfold qs', ts'; lengths).
  destruct (reconciled_rowwise ps' qs' ts' L1' L2') as (T' & Pr' & Qt').
  pose proof (reconciled_filled_rowwise ps' qs' ts' L1' L2') as F'.
  unfold ps', qs', ts' in T', Pr', Qt', F'.
  rewrite T', Pr', Qt', F'. rewrite !zip_with3_fuse.
  repeat split.
  - apply zip_with3_ext. intros p q t.
    rewrite <- !surjective_pairing.
    now rewrite (proj1 (reconcile_row_settled (p, q, t))).
  - apply zip_with3_ext. intros p q t.
    rewrite <- !surjective_pairing.
    now rewrite (proj1 (reconcile_row_settled (p, q, t))).
  - apply zip_with3_ext. intros p q t.
    rewrite <- !surjective_pairing.
    now rewrite (proj1 (reconcile_row_settled (p, q, t))).
  - apply list_sum_zero. intros p q t.
    rewrite <- !surjective_pairing.
    apply (proj2 (reconcile_row_settled (p, q, t))).
Qed.

(** X15. Reconciliation run again on the table it returned fills nothing:
    for three float columns of one length, the second call returns the same
    table, the count 0 and the log unchanged.  (It is the imputation between
    two runs of the cleaner that lets reconciliation fill again.) *)
Theorem reconcile_twice_fills_nothing {P : Pandas} (df df' : Table)
  (acts acts' : list Action) (filled : nat) (ps qs ts : list (option Q)) :
  get df "price_per_unit" = Some (SNum ps) ->
  get df "quantity" = Some (SNum qs) ->
  get df "total_spent" = Some (SNum ts) ->
  List.length ps = List.length qs -> List.length qs = List.length ts ->
  reconcile df acts = Ok (df', filled, acts') ->
  reconcile df' acts' = Ok (df', 0, acts').
Proof.
  intros Gp Gq Gt L1 L2. unfold reconcile.
  rewrite (reconcile_float_columns_filled df _ _ _ acts ps qs ts)
    by (assumption || discriminate).
  intros [= <- _ _].
  set (ps' := reconciled_price ps qs ts).
  set (qs' := reconciled_qty ps qs ts).
  set (ts' := reconciled_total ps qs ts).
  set (df' := set (set (set df "total_spent" (SNum ts'))
                       "price_per_unit" (SNum ps')) "quantity" (SNum qs')).
  assert (Gp' : get df' "price_per_unit" = Some (SNum ps')).
  { unfold df'. rewrite get_set_other by discriminate.
    apply get_set_same with (s := SNum ps).
    rewrite get_set_other by discriminate. exact Gp. }
  assert (Gq' : get df' "quantity" = Some (SNum qs')).
  { unfold df'. apply get_set_same with (s := SNum qs).
    rewrite !get_set_other by discriminate. exact Gq. }
  assert (Gt' : get df' "total_spent" = Some (SNum ts')).
  { unfold df'. rewrite !get_set_other by discriminate.
    now apply get_set_same with (s := SNum ts). }
  rewrite (reconcile_float_columns_filled df' _ _ _ acts' ps' qs' ts')
    by (assumption || discriminate).
  destruct (reconciled_again ps qs ts L1 L2) as (T & Pr & Qt & F).
  fold ps' qs' ts' in T, Pr, Qt, F. rewrite T, Pr, Qt, F.
  cbn [Nat.ltb Nat.leb].
  rewrite (set_same _ _ _ Gt'), (set_same _ _ _ Gp'), (set_same _ _ _ Gq').
  reflexivity.
Qed.

Lemma reconcile_twice_fills_nothing_witness :
  exists df' filled acts',
    @reconcile decimal_pandas
      (retail [None; Some 3%Q] [Some 2%Q; None] [Some 5%Q; None]) []
    = Ok (df', filled, acts')
    /\ @reconcile decimal_pandas df' acts' = Ok (df', 0, acts').
Proof.
  pose proof (@reconcile_float_columns_filled decimal_pandas
                (retail [None; Some 3%Q] [Some 2%Q; None] [Some 5%Q; None])
                "price_per_unit" "quantity" "total_spent" []
                [None; Some 3%Q] [Some 2%Q; None] [Some 5%Q; None]
                ltac:(discriminate) ltac:(discriminate) ltac:(discriminate)
                eq_refl eq_refl eq_refl) as E.
  eexists _, _, _. split; [exact E|].
  exact (@reconcile_twice_fills_nothing decimal_pandas
           (retail [None; Some 3%Q] [Some 2%Q; None] [Some 5%Q; None])
           _ [] _ _ [None; Some 3%Q] [Some 2%Q; None] [Some 5%Q; None]
           eq_refl eq_refl eq_refl eq_refl eq_refl E).
Defined.




(** ** The cleaner keeps the shape of the table *)

Lemma extends_refl a : extends a a.
Proof. exists []. now rewrite app_nil_r. Qed.

Lemma extends_app a b : extends a (a ++ b).
Proof. now exists b. Qed.

Lemma extends_trans a b c : extends a b -> extends b c -> extends a c.
Proof.
  intros [r1 ->] [r2 ->]. exists (r1 ++ r2). now rewrite app_assoc.
Qed.

Lemma Forall_update (Q0 : string * Series -> Prop) col v cs :
  Forall Q0 cs -> (forall n, Q0 (n, v)) -> Forall Q0 (update col v cs).
Proof.
  intros F H. induction F as [|[n x] cs Hx F IH]; simpl; [constructor|].
  destruct (String.eqb n col); constructor; auto.
Qed.

Lemma shape_set n ns df col v :
  shape_ok n ns df -> len v = n -> shape_ok n ns (set df col v).
Proof.
  intros (N & M & F) L. repeat split.
  - exact N.
  - now rewrite names_set.
  - apply Forall_update; [exact F|]. intros; exact L.
Qed.

Lemma shape_get n ns df col s :
  shape_ok n ns df -> get df col = Some s -> len s = n.
Proof.
  intros (_ & _ & F) G. apply lookup_In in G.
  rewrite Forall_forall in F. exact (F _ G).
Qed.

Lemma len_clean_normalize_series s : len (clean_normalize_series s) = len s.
Proof. destruct s; simpl; now rewrite ?length_map. Qed.

Lemma len_to_numeric {P : Pandas} s : len (_to_numeric s) = len s.
Proof. destruct s; simpl; now rewrite ?length_map. Qed.

Lemma numeric_to_numeric {P : Pandas} s : is_numeric_dtype (_to_numeric s) = true.
Proof. destruct s; reflexivity. Qed.

Lemma len_fillna {A} (v : A) l : List.length (fillna v l) = List.length l.
Proof. apply length_map. Qed.

Lemma len_fillna_unknown {P : Pandas} s : len (fillna_unknown s) = len s.
Proof. destruct s; simpl; now rewrite ?len_fillna, ?length_map. Qed.

Lemma len_as_floats s : is_numeric_dtype s = true ->
  List.length (as_floats s) = len s.
Proof. destruct s; simpl; try discriminate; now rewrite ?length_map. Qed.

Lemma settles_bind {A B} (I : A -> Prop) (J : B -> Prop)
  (r : Result A) (k : A -> Result B) :
  settles I r -> (forall a, I a -> settles J (k a)) -> settles J (bind r k).
Proof. destruct r as [a|e]; simpl; auto. Qed.

Lemma for_columns_settles (I : Table * list Action -> Prop) step cols st :
  (forall st col, I st -> settles I (step st col)) ->
  I st -> settles I (for_columns step cols st).
Proof.
  intros H. revert st. induction cols as [|c cols IH]; intros st Hst;
    simpl; [exact Hst|].
  eapply settles_bind; [apply H; exact Hst|]. intros st' Hst'. now apply IH.
Qed.

Section Shape.
Context {P : Pandas}.
Variable n : nat.
Variable ns : list string.

Lemma normalize_strings_shape df :
  shape_ok n ns df -> shape_ok n ns (normalize_strings df).
Proof.
  intros (N & M & F). repeat split; [exact N| |].
  - rewrite <- M. apply (names_per_column (fun _ => clean_normalize_series)).
  - unfold normalize_strings; simpl. rewrite Forall_map.
    eapply Forall_impl; [|exact F]. intros [c x]; simpl.
    now rewrite len_clean_normalize_series.
Qed.

Lemma try_parse_datetime_keeps df col acts :
  shape_ok n ns df ->
  settles (keeps n ns acts) (_try_parse_datetime df col acts).
Proof.
  intros S. unfold _try_parse_datetime.
  destruct (get df col) as [s|] eqn:G;
    [|split; [exact S|apply extends_refl]].
  pose proof (shape_get _ _ _ _ _ S G) as L.
  destruct s as [l|l|l|l|l]; simpl; try reflexivity;
    (split; [|apply extends_app]); apply shape_set; try exact S;
    simpl in *; now rewrite ?length_map.
Qed.

Lemma to_numeric_fold_shape df cols :
  shape_ok n ns df ->
  shape_ok n ns
    (fold_left (fun df c => match get df c with
                            | Some s => set df c (_to_numeric s)
                            | None => df
                            end) cols df).
Proof.
  revert df. induction cols as [|c cols IH]; intros df S; simpl; [exact S|].
  apply IH. destruct (get df c) as [s|] eqn:G; [|exact S].
  apply shape_set; [exact S|]. rewrite len_to_numeric.
  exact (shape_get _ _ _ _ _ S G).
Qed.

Lemma to_numeric_fold_numeric df cols c s :
  get (fold_left (fun df c => match get df c with
                              | Some s => set df c (_to_numeric s)
                              | None => df
                              end) cols df) c = Some s ->
  In c cols -> is_numeric_dtype s = true.
Proof.
  revert df. induction cols as [|c0 cols IH]; intros df G I; simpl in *;
    [contradiction|].
  destruct (in_dec string_dec c cols) as [I'|N']; [eapply IH; eauto|].
  destruct I as [->|I]; [|contradiction].
  assert (K : forall df', get (fold_left
                (fun df c => match get df c with
                             | Some s => set df c (_to_numeric s)
                             | None => df
                             end) cols df') c = get df' c).
  { clear - N'. induction cols as [|c1 cols IH]; intros df'; simpl;
      [reflexivity|].
    rewrite IH by (intros F; apply N'; now right).
    destruct (get df' c1) eqn:G1; [|reflexivity].
    apply get_set_other. intros ->. apply N'. now left. }
  rewrite K in G. destruct (get df c) as [s0|] eqn:G0.
  - rewrite (get_set_same _ _ _ _ G0) in G. injection G as <-.
    apply numeric_to_numeric.
  - congruence.
Qed.

Lemma pass_keeps df col t mask vals filled :
  shape_ok n ns df -> len t = n -> is_numeric_dtype t = true ->
  List.length mask = n -> List.length vals = n ->
  settles (fun r : Table * Series * nat =>
             shape_ok n ns (fst (fst r)) /\ len (snd (fst r)) = n
             /\ is_numeric_dtype (snd (fst r)) = true)
    (if any mask
     then t' <- loc_set t mask vals ;;
          Ok (set df col t', t', filled + mask_sum mask)
     else Ok (df, t, filled)).
Proof.
  intros S L N Lm Lv. destruct (any mask); [|simpl; auto].
  destruct t as [l|l|l|l|l]; simpl; try reflexivity.
  assert (Lz : List.length
                 (zip_with3 (fun (m : bool) v o => if m then v else o)
                            mask vals l) = n).
  { rewrite length_zip_with3; simpl in L; congruence. }
  split; [apply shape_set; assumption|]. split; [exact Lz|reflexivity].
Qed.

Lemma reconcile_keeps df price qty total acts :
  shape_ok n ns df ->
  settles (fun r : Table * nat * list Action =>
             keeps n ns acts (fst (fst r), snd r))
    (_reconcile_price_qty_total df price qty total acts).
Proof.
  intros S. unfold _reconcile_price_qty_total.
  set (df1 := fold_left _ [price; qty; total] df).
  assert (S1 : shape_ok n ns df1) by now apply to_numeric_fold_shape.
  destruct (get df1 price) as [p|] eqn:Gp;
    [|split; [exact S1|apply extends_refl]].
  destruct (get df1 qty) as [q|] eqn:Gq;
    [|split; [exact S1|apply extends_refl]].
  destruct (get df1 total) as [t|] eqn:Gt;
    [|split; [exact S1|apply extends_refl]].
  assert (Np : is_numeric_dtype p = true)
    by (eapply to_numeric_fold_numeric; [exact Gp|simpl; auto]).
  assert (Nq : is_numeric_dtype q = true)
    by (eapply to_numeric_fold_numeric; [exact Gq|simpl; auto]).
  assert (Nt : is_numeric_dtype t = true)
    by (eapply to_numeric_fold_numeric; [exact Gt|simpl; auto]).
  pose proof (shape_get _ _ _ _ _ S1 Gp) as Lp.
  pose proof (shape_get _ _ _ _ _ S1 Gq) as Lq.
  pose proof (shape_get _ _ _ _ _ S1 Gt) as Lt.
  pose proof (len_as_floats _ Np) as Ap.
  pose proof (len_as_floats _ Nq) as Aq.
  pose proof (len_as_floats _ Nt) as At.
  eapply settles_bind.
  { apply (pass_keeps df1 total t); try assumption; lengths. }
  intros [[df2 t2] f2] (S2 & Lt2 & Nt2). cbn [fst snd] in *.
  pose proof (len_as_floats _ Nt2) as At2.
  eapply settles_bind.
  { apply (pass_keeps df2 price p); try assumption; lengths. }
  intros [[df3 p3] f3] (S3 & Lp3 & Np3). cbn [fst snd] in *.
  pose proof (len_as_floats _ Np3) as Ap3.
  eapply (settles_bind (fun r : Table * nat => shape_ok n ns (fst r))).
  { destruct (any _); [|exact S3].
    destruct q as [l|l|l|l|l]; simpl; try reflexivity.
    apply shape_set; [exact S3|]. simpl in *. lengths. }
  intros [df4 f4] S4. cbn [fst] in S4.
  destruct (Nat.ltb 0 f4); simpl; split; try exact S4;
    [apply extends_app|apply extends_refl].
Qed.

Lemma fill_missing_numeric_keeps df col strategy acts :
  strategy = "median" ->
  shape_ok n ns df ->
  settles (keeps n ns acts) (_fill_missing_numeric df col strategy acts).
Proof.
  intros -> S. unfold _fill_missing_numeric.
  destruct (get df col) as [s|] eqn:G;
    [|split; [exact S|apply extends_refl]].
  pose proof (shape_get _ _ _ _ _ S G) as L.
  assert (S1 : shape_ok n ns (set df col (_to_numeric s))).
  { apply shape_set; [exact S|]. now rewrite len_to_numeric. }
  destruct (Nat.eqb _ 0); [split; [exact S1|apply extends_refl]|].
  unfold strategy_value. cbn [String.eqb Ascii.eqb Bool.eqb andb bind].
  destruct (median _) as [v|]; [|split; [exact S1|apply extends_refl]].
  pose proof (len_to_numeric s) as L'.
  destruct (_to_numeric s) as [l|l|l|l|l]; simpl; try reflexivity.
  split; [|apply extends_app]. apply shape_set; [exact S1|].
  simpl in *. rewrite len_fillna. congruence.
Qed.

Lemma fill_missing_bool_keeps df col acts :
  shape_ok n ns df -> keeps n ns acts (_fill_missing_bool_mode df col acts).
Proof.
  intros S. unfold _fill_missing_bool_mode.
  destruct (get df col) as [s|] eqn:G;
    [|split; [exact S|apply extends_refl]].
  pose proof (shape_get _ _ _ _ _ S G) as L.
  pose proof (len_parse_bool s) as L'.
  assert (S1 : shape_ok n ns (set df col (_parse_bool s))).
  { apply shape_set; [exact S|]. congruence. }
  cbv zeta. destruct (Nat.eqb _ 0); [split; [exact S1|apply extends_refl]|].
  destruct (_parse_bool s) as [l|l|l|l|l];
    try (split; [exact S1|apply extends_refl]).
  split; [|apply extends_app]. apply shape_set; [exact S1|].
  simpl in *. rewrite len_fillna. congruence.
Qed.

Lemma fill_missing_categorical_keeps df col acts :
  shape_ok n ns df ->
  keeps n ns acts (_fill_missing_categorical_unknown df col acts).
Proof.
  intros S. unfold _fill_missing_categorical_unknown.
  destruct (get df col) as [s|] eqn:G;
    [|split; [exact S|apply extends_refl]].
  destruct (is_numeric_dtype s); [split; [exact S|apply extends_refl]|].
  destruct (Nat.eqb _ 0); [split; [exact S|apply extends_refl]|].
  split; [|apply extends_app]. apply shape_set; [exact S|].
  rewrite len_fillna_unknown. exact (shape_get _ _ _ _ _ S G).
Qed.

Lemma cap_outliers_keeps df col acts k :
  shape_ok n ns df -> keeps n ns acts (_cap_outliers_iqr df col acts k).
Proof.
  intros S. unfold _cap_outliers_iqr.
  destruct (get df col) as [s|] eqn:G;
    [|split; [exact S|apply extends_refl]].
  pose proof (shape_get _ _ _ _ _ S G) as L.
  destruct s as [l|l|l|l|l]; cbn [is_numeric_dtype is_bool_dtype negb];
    try (split; [exact S|apply extends_refl]).
  destruct (quantile _ _); [|split; [exact S|apply extends_refl]].
  destruct (quantile _ _); [|split; [exact S|apply extends_refl]].
  destruct (Qeq_bool _ 0); [split; [exact S|apply extends_refl]|].
  cbv zeta.
  match goal with
  | |- context [set df col ?v] => assert (S1 : shape_ok n ns (set df col v))
  end.
  { apply shape_set; [exact S|]. simpl in *. now rewrite length_map. }
  destruct (Nat.eqb _ 0); split; try exact S1;
    [apply extends_refl|apply extends_app].
Qed.

End Shape.

Lemma keeps_weaken n ns a b st :
  extends a b -> keeps n ns b st -> keeps n ns a st.
Proof. intros E [S E']. split; [exact S|]. eapply extends_trans; eauto. Qed.

Lemma settles_weaken {A} (I J : A -> Prop) r :
  (forall a, I a -> J a) -> settles I r -> settles J r.
Proof. destruct r; simpl; auto. Qed.

Lemma cleaner_keeps {P : Pandas} n ns df :
  shape_ok n ns df ->
  settles (keeps n ns [NormalizeStrings]) (clean_dataset df).
Proof.
  intros S. unfold clean_dataset. cbv zeta.
  eapply settles_bind.
  { apply try_parse_datetime_keeps. apply normalize_strings_shape, S. }
  intros [df1 a1] [S1 E1]. cbn [fst snd] in S1, E1.
  set (st2 := match get df1 "discount_applied" with
              | Some s => _
              | None => _
              end).
  assert (K2 : keeps n ns [NormalizeStrings] st2).
  { subst st2. destruct (get df1 "discount_applied") as [s|] eqn:G.
    - split; cbn [fst snd].
      + apply shape_set; [exact S1|]. rewrite len_parse_bool.
        exact (shape_get _ _ _ _ _ S1 G).
      + eapply extends_trans; [exact E1|apply extends_app].
    - now split. }
  destruct st2 as [df2 a2]. destruct K2 as [S2 E2]. cbn [fst snd] in S2, E2.
  eapply settles_bind.
  { apply reconcile_keeps. apply to_numeric_fold_shape. exact S2. }
  intros [[df3 f3] a3] K3. cbn [fst snd] in K3.
  apply (keeps_weaken _ _ _ _ _ E2) in K3.
  eapply settles_bind.
  { apply for_columns_settles; [|exact K3].
    intros [d a] col [Sd Ed]. cbn [fst snd] in Sd, Ed.
    destruct (get d col) as [s|]; [|now split].
    destruct (_ && _)%bool; [|now split].
    eapply settles_weaken; [intros st; apply (keeps_weaken _ _ _ _ _ Ed)|].
    now apply fill_missing_numeric_keeps. }
  intros st4 K4.
  eapply settles_bind.
  { apply for_columns_settles; [|exact K4].
    intros [d a] col [Sd Ed]. cbn [fst snd] in Sd, Ed.
    destruct (get d col) as [s|]; [|now split].
    destruct (is_boolean s); [|now split].
    apply (keeps_weaken _ _ _ _ _ Ed). now apply fill_missing_bool_keeps. }
  intros st5 K5.
  eapply settles_bind.
  { apply for_columns_settles; [|exact K5].
    intros [d a] col [Sd Ed]. cbn [fst snd] in Sd, Ed.
    apply (keeps_weaken _ _ _ _ _ Ed).
    now apply fill_missing_categorical_keeps. }
  intros st6 K6.
  apply for_columns_settles; [|exact K6].
  intros [d a] col [Sd Ed]. cbn [fst snd] in Sd, Ed.
  destruct (get d col) as [s|]; [|now split].
  destruct (is_numeric_dtype s); [|now split].
  apply (keeps_weaken _ _ _ _ _ Ed). now apply cap_outliers_keeps.
Qed.

(** X17. [clean_dataset] keeps the shape of the table and never raises the
    unknown-strategy [ValueError]: on a table whose columns have distinct
    names and as many cells as the table has rows, a run that returns gives
    a table with the same number of rows, the same column names in the same
    order and columns of that length again, and a log whose first entry is
    the [normalize_strings] line; a run that does not return stops at the
    limit of the embedding, not at the [raise ValueError] of
    [_fill_missing_numeric], whose strategy is always ["median"] here. *)
Theorem clean_dataset_keeps_shape {P : Pandas} (df : Table) :
  wf_table df ->
  match clean_dataset df with
  | Ok (df', log) =>
      wf_table df' /\ nrows df' = nrows df /\ names df' = names df
      /\ exists rest, log = NormalizeStrings :: rest
  | Raise e => e = OutOfModel
  end.
Proof.
  intros [N F].
  assert (S : shape_ok (nrows df) (names df) df) by (repeat split; exact F).
  pose proof (cleaner_keeps _ _ _ S) as H.
  destruct (clean_dataset df) as [[df' log]|e]; [|exact H].
  destruct H as [(R & M & F') [rest E]]. cbn [fst snd] in *.
  split; [split|split; [exact R|split; [exact M|]]].
  - now rewrite M.
  - now rewrite R.
  - exists rest. exact E.
Qed.

Lemma clean_dataset_keeps_shape_witness :
  wf_table (retail [Some 3%Q; None] [Some 2%Q; None] [None; Some 5%Q])
  /\ match @clean_dataset decimal_pandas
             (retail [Some 3%Q; None] [Some 2%Q; None] [None; Some 5%Q]) with
     | Ok (df', log) =>
         wf_table df' /\ nrows df' = 2 /\
         names df' = ["price_per_unit"; "quantity"; "total_spent"]
         /\ exists rest, log = NormalizeStrings :: rest
     | Raise e => e = OutOfModel
     end.
Proof.
  assert (W : wf_table
                (retail [Some 3%Q; None] [Some 2%Q; None] [None; Some 5%Q])).
  { split; [|repeat constructor].
    repeat constructor; simpl; intuition discriminate. }
  split; [exact W|].
  exact (@clean_dataset_keeps_shape decimal_pandas _ W).
Defined.

(** ** The cleaner returns *)


Section Returns.
Context {P : Pandas}.







End Returns.



(** ** What the cleaner leaves *)

Lemma isna_sum_sum_zero df :
  Forall (fun c => isna_sum (snd c) = 0) (columns df) -> isna_sum_sum df = 0.
Proof.
  unfold isna_sum_sum. induction 1 as [|c cs H F IH]; simpl; [reflexivity|].
  now rewrite H, IH.
Qed.

Lemma settled_complete name s : settled name s -> isna_sum s = 0.
Proof. destruct s; simpl; tauto. Qed.

(** X19. On a table of text and boolean columns (none of them a column of
    the retail schema) [clean_dataset] returns a table without a missing
    cell: every text column was filled with ["Unknown"] and every boolean
    column with its mode, so [isna().sum()] is 0 in every column and
    [df.isna().sum().sum()] is 0. *)
Theorem clean_dataset_leaves_no_missing_cell {P : Pandas} (df : Table) :
  plain_table df ->
  exists cleaned log,
    clean_dataset df = Ok (cleaned, log)
    /\ Forall (fun c => isna_sum (snd c) = 0) (columns cleaned)
    /\ isna_sum_sum cleaned = 0.
Proof.
  intros Hp. exists (plain_cleaned df), (plain_log df).
  split; [now apply clean_dataset_plain|].
  assert (F : Forall (fun c => isna_sum (snd c) = 0)
                     (columns (plain_cleaned df))).
  { apply Forall_forall. intros [n s] I. simpl.
    eapply settled_complete, plain_cleaned_settled; eauto. }
  split; [exact F|now apply isna_sum_sum_zero].
Qed.

Lemma clean_dataset_leaves_no_missing_cell_witness :
  let df := mkTable 3 [("name", SText [Some " Bob "; Some "NA"; None]);
                       ("member", SBoolean [Some true; None; Some true])] in
  plain_table df
  /\ exists cleaned log,
       @clean_dataset decimal_pandas df = Ok (cleaned, log)
       /\ Forall (fun c => isna_sum (snd c) = 0) (columns cleaned)
       /\ isna_sum_sum cleaned = 0.
Proof.
  intros df.
  assert (Hp : plain_table df).
  { repeat split.
    - repeat constructor; simpl; intuition discriminate.
    - repeat constructor.
    - simpl. intuition (subst; discriminate). }
  split; [exact Hp|].
  exact (@clean_dataset_leaves_no_missing_cell decimal_pandas df Hp).
Defined.

(** ** The counts and the percentages of the profile *)

Lemma round2_ge_10 (x : Q) : (10 <= x)%Q -> (10 <= round2 x)%Q.
Proof.
  intros L. unfold round2. rewrite Qred_correct.
  set (fl := Qfloor (x * 100)).
  assert (L' : (1000 <= fl)%Z).
  { change 1000%Z with (Qfloor (inject_Z 1000)). apply Qfloor_resp_le.
    change (inject_Z 1000) with (10 * 100)%Q.
    apply Qmult_le_compat_r; [exact L|]. discriminate. }
  set (up := if Qlt_bool _ _ then false else _).
  assert (Z : (1000 <= (if up then fl + 1 else fl))%Z) by (destruct up; lia).
  generalize dependent (if up then (fl + 1)%Z else fl). intros z Z.
  apply Qle_shift_div_l; [reflexivity|].
  change (10 * 100)%Q with (inject_Z 1000). rewrite <- Zle_Qle. lia.
Qed.

Lemma percent_le_100 (k n : nat) : k <= n -> 0 < n -> (percent k n <= 100)%Q.
Proof.
  intros L N. unfold percent.
  change 100%Q with (1 * 100)%Q at 2.
  apply Qmult_le_compat_r; [|discriminate].
  apply Qle_shift_div_r.
  - change 0%Q with (inject_Z 0). rewrite <- Zlt_Qlt. lia.
  - rewrite Qmult_1_l. rewrite <- Zle_Qle. lia.
Qed.

Lemma isna_sum_le (s : Series) : isna_sum s <= len s.
Proof. destruct s; simpl; try apply count_none_le; lia. Qed.

Lemma isna_sum_sum_le (df : Table) :
  Forall (fun c => len (snd c) = nrows df) (columns df) ->
  isna_sum_sum df <= nrows df * List.length (columns df).
Proof.
  unfold isna_sum_sum. generalize (nrows df) as r. intros r.
  induction 1 as [|c cs H F IH]; simpl; [lia|].
  pose proof (isna_sum_le (snd c)). nia.
Qed.

Lemma count_duplicated_le (seen rs : list (list Cell)) :
  count_duplicated seen rs <= List.length rs.
Proof.
  revert seen. induction rs as [|r rs IH]; intros seen; simpl; [lia|].
  specialize (IH (r :: seen)). destruct (existsb _ seen); lia.
Qed.

Lemma duplicated_sum_le (df : Table) : duplicated_sum df <= nrows df.
Proof.
  unfold duplicated_sum. destruct (columns df); [lia|].
  etransitivity; [apply count_duplicated_le|].
  now rewrite length_map, length_seq.
Qed.

Lemma detect_outliers_le (s : Series) : detect_outliers s <= len s.
Proof.
  etransitivity; [|apply length_dropna_values].
  unfold detect_outliers.
  destruct (negb (is_numeric_dtype s)); [lia|].
  destruct (Nat.ltb _ 3); [lia|].
  destruct (quantile _ _); [|lia]. destruct (quantile _ _); [|lia].
  destruct (Qeq_bool _ 0); [lia|]. apply filter_length_le.
Qed.

Lemma len_dropna_le (s : Series) : len (dropna s) <= len s.
Proof.
  destruct s; simpl; rewrite ?length_map; try apply length_somes_le; lia.
Qed.

Lemma len_normalize_series (s : Series) : len (normalize_series s) = len s.
Proof. destruct s; simpl; now rewrite ?length_map. Qed.

Section Counts.
Context {P : Pandas}.

Lemma len_clean_numeric (s : Series) : len (clean_numeric_series s) = len s.
Proof.
  unfold clean_numeric_series.
  destruct s; simpl; now rewrite ?length_map, ?repeat_length.
Qed.

Lemma outliers_of_le (r : nat) (s : Series) :
  outliers_of (column_profile r s) <= len s.
Proof.
  unfold outliers_of, column_profile; cbn [cp_outliers].
  destruct (infer_column_type s); try lia.
  destruct (Nat.leb 3 _); [|lia].
  etransitivity; [apply detect_outliers_le|].
  etransitivity; [apply len_dropna_le|]. now rewrite len_clean_numeric.
Qed.

Lemma total_outliers_le (df : Table) :
  Forall (fun c => len (snd c) = nrows df) (columns df) ->
  total_outliers df <= nrows df * List.length (columns df).
Proof.
  unfold total_outliers, column_profiles. intros F.
  assert (G : forall r r0 cs acc,
             Forall (fun c : string * Series => len (snd c) = r) cs ->
             fold_left (fun acc c => acc + outliers_of (snd c))
               (map (fun c => (fst c, column_profile r0 (snd c))) cs) acc
             <= acc + r * List.length cs).
  { clear. intros r r0 cs acc F. revert acc.
    induction F as [|c cs H F IH]; intros acc; simpl; [lia|].
    etransitivity; [apply IH|].
    pose proof (outliers_of_le r0 (snd c)). nia. }
  apply (G _ _ _ 0 F).
Qed.

Lemma normalized_lengths (df : Table) :
  Forall (fun c => len (snd c) = nrows df) (columns df) ->
  Forall (fun c => len (snd c) = nrows (_normalize_missing_tokens df))
         (columns (_normalize_missing_tokens df)).
Proof.
  intros F. unfold _normalize_missing_tokens; simpl. rewrite Forall_map.
  eapply Forall_impl; [|exact F]. intros c; simpl.
  now rewrite len_normalize_series.
Qed.

End Counts.

Lemma health_bounds (r c m d o : nat) :
  m <= r * c -> d <= r -> o <= r * c ->
  match health r c m d o with
  | (score, mp, dp, op) =>
      (0 <= mp)%Q /\ (mp <= 100)%Q
      /\ (0 <= dp)%Q /\ (dp <= 100)%Q
      /\ (0 <= op)%Q /\ (op <= 100)%Q
      /\ match score with
         | Some h => (10 <= h)%Q /\ (h <= 100)%Q
         | None => r = 0 \/ c = 0
         end
  end.
Proof.
  intros M D O.
  destruct (Nat.eq_dec r 0) as [R|R].
  { rewrite health_empty by (now left).
    repeat (split; [discriminate|]). now left. }
  destruct (Nat.eq_dec c 0) as [C|C].
  { rewrite health_empty by (now right).
    repeat (split; [discriminate|]). now right. }
  rewrite health_nonempty by lia.
  assert (T : 0 < r * c) by nia.
  pose proof (percent_le_100 _ _ M T) as Mp.
  pose proof (percent_le_100 _ _ D ltac:(lia)) as Dp.
  pose proof (percent_le_100 _ _ O T) as Op.
  pose proof (percent_nonneg m (r * c)) as Mn.
  pose proof (percent_nonneg d r) as Dn.
  pose proof (percent_nonneg o (r * c)) as On.
  revert Mp Dp Op Mn Dn On.
  generalize (percent m (r * c)) as mp, (percent d r) as dp,
             (percent o (r * c)) as op.
  intros mp dp op Mp Dp Op Mn Dn On.
  split; [now apply round2_between|]. split; [now apply round2_between|].
  split; [now apply round2_between|]. split; [now apply round2_between|].
  split; [now apply round2_between|]. split; [now apply round2_between|].
  split.
  - apply round2_ge_10. unfold spec_health_score.
    eapply Qle_trans; [|apply Q.le_max_r].
    pose proof (Q.le_min_r (op * (30 # 100)) 30) as K.
    revert K. generalize (Qmin (op * (30 # 100)) 30) as mn. intros mn K.
    lra.
  - apply round2_between; now apply spec_health_score_between.
Qed.

(** X20. On a table whose columns all have as many cells as the table has
    rows, the counts of [profile_dataset] stay within the table: the missing
    cells and the outliers are at most rows x columns and the duplicate rows
    at most the rows.  So the three percentages lie between 0 and 100, and
    the score, when there is one, lies between 10 and 100: the penalties add
    up to 90 at most, and the [max(0.0, ...)] of the source never applies. *)
Theorem profile_counts_within_table {P : Pandas} (df : Table) :
  wf_table df ->
  let norm := _normalize_missing_tokens df in
  let prof := profile_dataset df in
  isna_sum_sum norm <= nrows df * List.length (columns df)
  /\ duplicated_sum norm <= nrows df
  /\ total_outliers norm <= nrows df * List.length (columns df)
  /\ (0 <= missing_percent prof)%Q /\ (missing_percent prof <= 100)%Q
  /\ (0 <= duplicate_percent prof)%Q /\ (duplicate_percent prof <= 100)%Q
  /\ (0 <= outlier_percent prof)%Q /\ (outlier_percent prof <= 100)%Q
  /\ match data_health_score prof with
     | Some h => (10 <= h)%Q /\ (h <= 100)%Q
     | None => nrows df = 0 \/ List.length (columns df) = 0
     end.
Proof.
  intros [_ F]. cbv zeta.
  pose proof (normalized_lengths df F) as F'.
  pose proof (isna_sum_sum_le _ F') as M.
  pose proof (duplicated_sum_le (_normalize_missing_tokens df)) as D.
  pose proof (total_outliers_le _ F') as O.
  assert (Hc : List.length (columns (_normalize_missing_tokens df))
               = List.length (columns df)) by apply length_map.
  rewrite Hc in M, O.
  change (nrows (_normalize_missing_tokens df)) with (nrows df) in M, D, O.
  split; [exact M|]. split; [exact D|]. split; [exact O|].
  unfold profile_dataset. rewrite Hc.
  change (nrows (_normalize_missing_tokens df)) with (nrows df).
  pose proof (health_bounds _ _ _ _ _ M D O) as H.
  destruct (health _ _ _ _ _) as [[[score mp] dp] op].
  exact H.
Qed.

Lemma profile_counts_within_table_witness :
  let df := mkTable 3 [("x", SNum [None; Some 1%Q; Some 2%Q])] in
  wf_table df
  /\ (missing_percent (@profile_dataset decimal_pandas df) <= 100)%Q.
Proof.
  intros df.
  assert (W : wf_table df).
  { split; [|repeat constructor].
    repeat constructor; simpl; intuition discriminate. }
  split; [exact W|].
  exact (proj1 (proj2 (proj2 (proj2 (proj2
           (@profile_counts_within_table decimal_pandas df W)))))).
Defined.

(** ** The profile before and after cleaning *)

Lemma profile_shape {P : Pandas} (df : Table) :
  rows (profile_dataset df) = nrows df
  /\ cols (profile_dataset df) = List.length (names df)
  /\ map fst (columns_profile (profile_dataset df)) = names df.
Proof.
  unfold profile_dataset.
  destruct (health _ _ _ _ _) as [[[score mp] dp] op]. cbn.
  unfold column_profiles, names; cbn. rewrite !length_map, !map_map.
  repeat split; reflexivity.
Qed.

(** X21. Profiling after cleaning describes the same table shape as
    profiling before: when [clean_dataset] returns on a table with distinct
    column names and full columns, the two profiles that [run_pipeline]
    takes have the same [rows], the same [columns] and the same column names
    in the same order, those of the input. *)
Theorem profile_shape_after_cleaning {P : Pandas}
  (df cleaned : Table) (log : list Action) :
  wf_table df ->
  clean_dataset df = Ok (cleaned, log) ->
  rows (profile_dataset cleaned) = rows (profile_dataset df)
  /\ cols (profile_dataset cleaned) = cols (profile_dataset df)
  /\ map fst (columns_profile (profile_dataset cleaned))
     = map fst (columns_profile (profile_dataset df))
  /\ rows (profile_dataset df) = nrows df
  /\ map fst (columns_profile (profile_dataset df)) = names df.
Proof.
  intros [N F] E.
  assert (S : shape_ok (nrows df) (names df) df) by (repeat split; exact F).
  pose proof (cleaner_keeps _ _ _ S) as K. rewrite E in K.
  destruct K as [(R & M & _) _]. cbn [fst] in R, M.
  destruct (profile_shape df) as (A1 & A2 & A3).
  destruct (profile_shape cleaned) as (B1 & B2 & B3).
  rewrite A1, A2, A3, B1, B2, B3, R, M. repeat split; reflexivity.
Qed.

Lemma profile_shape_after_cleaning_witness :
  let df := retail [Some 3%Q; None] [Some 2%Q; None] [None; Some 5%Q] in
  exists cleaned log,
    @clean_dataset decimal_pandas df = Ok (cleaned, log)
    /\ rows (@profile_dataset decimal_pandas cleaned) = 2.
Proof.
  intros df.
  assert (W : wf_table df).
  { split; [|repeat constructor].
    repeat constructor; simpl; intuition discriminate. }
  destruct (@clean_dataset decimal_pandas df) as [[cleaned log]|e] eqn:E;
    [|vm_compute in E; discriminate E].
  exists cleaned, log. split; [reflexivity|].
  destruct (@profile_shape_after_cleaning decimal_pandas df cleaned log W E)
    as (H1 & _ & _ & H4 & _).
  rewrite H1. exact H4.
Defined.

(** X22. Normalising the table ahead of the call changes nothing in the
    profile: [profile_dataset] starts with [_normalize_missing_tokens], and
    a normalised table is normalised to itself. *)
Theorem profile_dataset_absorbs_normalization {P : Pandas} (df : Table) :
  profile_dataset (_normalize_missing_tokens df) = profile_dataset df.
Proof.
  assert (E : _normalize_missing_tokens (_normalize_missing_tokens df)
              = _normalize_missing_tokens df).
  { unfold _normalize_missing_tokens; simpl. f_equal.
    rewrite map_map. apply map_ext. intros [n s]; simpl.
    now rewrite normalize_series_idem. }
  unfold profile_dataset. now rewrite E.
Qed.

(** ** metrics.py and the fallback of the reporter *)

Lemma clamp_between (x lo hi : Q) :
  (lo <= hi)%Q -> (lo <= clamp x lo hi)%Q /\ (clamp x lo hi <= hi)%Q.
Proof.
  intros H. unfold clamp. split; [apply Q.le_max_l|].
  apply Q.max_lub; [exact H|apply Q.le_min_l].
Qed.


(** X23. [compute_health_score] returns a score between 0 and 100 for every
    input and every choice of weights, and a missing percentage ([None])
    counts as 0. *)
Theorem compute_health_score_bounded (m d o : option Q) (wm wd wo : Q) :
  (0 <= compute_health_score m d o wm wd wo)%Q
  /\ (compute_health_score m d o wm wd wo <= 100)%Q
  /\ compute_health_score None d o wm wd wo
     = compute_health_score (Some 0%Q) d o wm wd wo.
Proof.
  split; [|split; [|reflexivity]];
    apply round2_between; apply clamp_between; discriminate.
Qed.



(** X25. The fallback of the reporter on a profile of [profile_dataset]: a
    profile that has a score is returned as it is; a profile without one is
    the profile of a table without rows or without columns, and the fallback
    score is 100.  Either way the
    report holds a score between 0 and 100, the rest of the profile is
    kept, and a second call changes nothing. *)
Theorem ensure_health_score_of_profile {P : Pandas} (df : Table) :
  let prof := profile_dataset df in
  let out := _ensure_health_score prof in
  (forall h, data_health_score prof = Some h -> out = prof)
  /\ (data_health_score prof = None ->
      (nrows df = 0 \/ columns df = [])
      /\ data_health_score out = Some 100%Q)
  /\ (exists h, data_health_score out = Some h
                /\ (0 <= h)%Q /\ (h <= 100)%Q)
  /\ rows out = rows prof /\ cols out = cols prof
  /\ missing_percent out = missing_percent prof
  /\ duplicate_percent out = duplicate_percent prof
  /\ outlier_percent out = outlier_percent prof
  /\ columns_profile out = columns_profile prof
  /\ _ensure_health_score out = out.
Proof.
  cbv zeta. unfold profile_dataset.
  assert (Hc : List.length (columns (_normalize_missing_tokens df))
               = List.length (columns df)) by apply length_map.
  rewrite Hc. change (nrows (_normalize_missing_tokens df)) with (nrows df).
  destruct (Nat.eq_dec (nrows df) 0) as [R|R];
    [|destruct (columns df) as [|c0 cs] eqn:C].
  - rewrite health_empty by (now left). cbn.
    split; [discriminate|]. split; [intros _; split; [now left|reflexivity]|].
    split; [exists 100%Q; repeat split; discriminate|].
    repeat split; reflexivity.
  - cbn [List.length]. rewrite health_empty by (now right). cbn.
    split; [discriminate|]. split; [intros _; split; [now right|reflexivity]|].
    split; [exists 100%Q; repeat split; discriminate|].
    repeat split; reflexivity.
  - rewrite health_nonempty by (simpl; lia).
    unfold _ensure_health_score. cbn [data_health_score].
    split; [reflexivity|]. split; [discriminate|].
    split; [|repeat split; reflexivity].
    eexists. split; [reflexivity|].
    apply round2_between; apply spec_health_score_between;
      apply percent_nonneg.
Qed.

Lemma ensure_health_score_of_profile_witness :
  data_health_score
    (_ensure_health_score (@profile_dataset decimal_pandas (mkTable 0 [])))
  = Some 100%Q.
Proof.
  refine (proj2 (proj1 (proj2 (@ensure_health_score_of_profile decimal_pandas
                                 (mkTable 0 []))) _)).
  reflexivity.
Defined.

(** ** The profile of one column *)

Lemma length_dedup_le {A} (eqb : A -> A -> bool) (l : list A) :
  List.length (dedup eqb l) <= List.length l.
Proof.
  induction l as [|x l IH]; simpl; [lia|].
  destruct (existsb (eqb x) l); simpl; lia.
Qed.

Lemma length_somes_count_none {A} (l : list (option A)) :
  List.length (somes l) + count_none l = List.length l.
Proof.
  unfold count_none. induction l as [|[x|] l IH]; simpl; lia.
Qed.

Lemma nunique_le (s : Series) : nunique s + isna_sum s <= len s.
Proof.
  destruct s as [l|l|l|l|l]; simpl.
  - pose proof (length_somes_count_none l).
    pose proof (length_dedup_le String.eqb (somes l)). lia.
  - pose proof (length_somes_count_none l).
    pose proof (length_dedup_le Qeq_bool (somes l)). lia.
  - pose proof (length_dedup_le Bool.eqb l). lia.
  - pose proof (length_somes_count_none l).
    pose proof (length_dedup_le Bool.eqb (somes l)). lia.
  - pose proof (length_somes_count_none l).
    pose proof (length_dedup_le Z.eqb (somes l)). lia.
Qed.

(** X26. The entries of a column profile stay within the column: the
    cardinality counts non-missing cells only, so cardinality and missing
    cells together are at most the length of the column; the missing
    percentage lies between 0 and 100; and the [outliers] entry is there
    exactly when the column was inferred numeric, and is then at most the
    length of the column. *)
Theorem column_profile_within_column {P : Pandas} (r : nat) (s : Series) :
  len s = r ->
  let cp := column_profile r s in
  cp_cardinality cp + isna_sum s <= len s
  /\ (0 <= cp_missing_percent cp)%Q /\ (cp_missing_percent cp <= 100)%Q
  /\ (cp_type cp = numeric ->
      exists k, cp_outliers cp = Some k /\ k <= len s)
  /\ (cp_type cp <> numeric -> cp_outliers cp = None).
Proof.
  intros L. cbv zeta.
  split; [apply nunique_le|].
  assert (B : (0 <= cp_missing_percent (column_profile r s))%Q
              /\ (cp_missing_percent (column_profile r s) <= 100)%Q).
  { unfold column_profile; cbn [cp_missing_percent].
    destruct (Nat.eqb_spec r 0) as [E|E]; [split; discriminate|].
    apply round2_between; [apply percent_nonneg|].
    apply percent_le_100; [apply isna_sum_le|lia]. }
  split; [exact (proj1 B)|]. split; [exact (proj2 B)|].
  pose proof (outliers_of_le r s) as O.
  unfold outliers_of in O. unfold column_profile in *.
  cbn [cp_type cp_outliers] in *.
  destruct (infer_column_type s); split; try congruence;
    try discriminate.
  intros _. eexists. split; [reflexivity|exact O].
Qed.

Lemma column_profile_within_column_witness :
  cp_cardinality
    (@column_profile decimal_pandas 3 (SText [Some "a"; None; Some "a"]))
  + 1 <= 3.
Proof.
  exact (proj1 (@column_profile_within_column decimal_pandas 3
                  (SText [Some "a"; None; Some "a"]) eq_refl)).
Defined.
